(** * mysqldump_to_csv: a shallow embedding and its properties

    The program reads a MySQL dump line by line, accumulates the text of
    each [INSERT INTO] statement, extracts a fixed list of columns from
    every row-group of the statement and writes them as rows of CSV files
    that are rotated every [LINES_PER_FILE] rows.

    Conventions of the embedding:
    - a Python [str] is a [string]; its characters are the code points
      below 256, with [str.isspace] and the regular-expression classes
      [\s] and [\d] restricted to that range;
    - a Python [int] is a [Z];
    - a CSV file is the list of the rows handed to [csv.writer.writerow],
      a row being a list of cells (the quoting done by the [csv] module
      when it serialises a row is not modelled);
    - the files are kept in the order in which they are opened, so the
      file [apteka_<k>.csv] is the [k]-th one;
    - code that can raise runs in a state-and-exception monad; the state
      survives an exception, as files on disk do;
    - the environment is explicit: the input is a list of events (a line
      read, or an exception raised while reading), and a function says
      on which writes [writerow] raises;
    - the state carries one ghost field, the log of the values of the
      row counter at the start of each row-group. *)

From Stdlib Require Import List String Ascii ZArith Lia Bool.
Import ListNotations.
Open Scope string_scope.
Open Scope list_scope.
Open Scope Z_scope.

(** ** Characters and the [str] methods the script calls *)

(** [str.isspace] on the code points below 256: TAB, LF, VT, FF, CR, the
    four separators FS, GS, RS, US, the space, NEL and the no-break space. *)
Definition is_space (c : ascii) : bool :=
  let n := N_of_ascii c in
  ((9 <=? n) && (n <=? 13) || (28 <=? n) && (n <=? 32)
   || (n =? 133) || (n =? 160))%N.

(** The class [\d] on the same range: the ten ASCII digits. *)
Definition is_digit (c : ascii) : bool :=
  let n := N_of_ascii c in ((48 <=? n) && (n <=? 57))%N.

Definition is_paren (c : ascii) : bool :=
  Ascii.eqb c "(" || Ascii.eqb c ")".

Definition is_semicolon (c : ascii) : bool := Ascii.eqb c ";".

Definition nonempty (s : string) : bool :=
  match s with EmptyString => false | String _ _ => true end.

(** [s.lstrip(chars)], the set [chars] given as a predicate. *)
Fixpoint lstrip (p : ascii -> bool) (s : string) : string :=
  match s with
  | EmptyString => EmptyString
  | String c s' => if p c then lstrip p s' else s
  end.

(** [s.rstrip(chars)]. *)
Fixpoint rstrip (p : ascii -> bool) (s : string) : string :=
  match s with
  | EmptyString => EmptyString
  | String c s' =>
      match rstrip p s' with
      | EmptyString => if p c then EmptyString else String c EmptyString
      | r => String c r
      end
  end.

(** [s.strip(chars)]. *)
Definition strip_chars (p : ascii -> bool) (s : string) : string :=
  rstrip p (lstrip p s).

(** [s.strip()]. *)
Definition strip (s : string) : string := strip_chars is_space s.

(** [s.startswith(pre)]. *)
Fixpoint startswith (pre s : string) : bool :=
  match pre, s with
  | EmptyString, _ => true
  | String a pre', String b s' => Ascii.eqb a b && startswith pre' s'
  | String _ _, EmptyString => false
  end.

(** [s.endswith(";")]. *)
Fixpoint endswith_semicolon (s : string) : bool :=
  match s with
  | EmptyString => false
  | String c EmptyString => is_semicolon c
  | String _ s' => endswith_semicolon s'
  end.

(** [s[n:]]. *)
Fixpoint drop (n : nat) (s : string) : string :=
  match n, s with
  | O, _ => s
  | S n', String _ s' => drop n' s'
  | S _, EmptyString => EmptyString
  end.

(** Third component of [s.partition(sep)]: the text after the first
    occurrence of [sep], and the empty string when [sep] does not occur. *)
Fixpoint partition_tail (sep s : string) : string :=
  if startswith sep s then drop (String.length sep) s
  else match s with
       | EmptyString => EmptyString
       | String _ s' => partition_tail sep s'
       end.

(** ** The two regular expressions *)

(** [\s*\(] at the start of [s]: the number of characters matched.  The
    star is greedy, and giving characters back never helps, since the
    character after a shorter run of blanks is a blank and not ["("]. *)
Fixpoint match_blanks_open (s : string) : option nat :=
  match s with
  | EmptyString => None
  | String c s' =>
      if Ascii.eqb c "(" then Some 1%nat
      else if is_space c then option_map S (match_blanks_open s')
      else None
  end.

(** [\),\s*\(] at the start of [s]: the length of the match. *)
Definition match_separator (s : string) : option nat :=
  match s with
  | String c1 (String c2 s') =>
      if Ascii.eqb c1 ")" && Ascii.eqb c2 ","
      then option_map (fun n => S (S n)) (match_blanks_open s')
      else None
  | _ => None
  end.

(** The scan of [re.split]: matches are looked for from left to right and
    do not overlap.  [skip] counts the characters of the current match
    that are still to be passed over; the head of the result is the piece
    that is being read. *)
Fixpoint re_split_scan (skip : nat) (s : string) : list string :=
  match s with
  | EmptyString => [EmptyString]
  | String c s' =>
      match skip with
      | S k => re_split_scan k s'
      | O =>
          match match_separator s with
          | Some n => EmptyString :: re_split_scan (Nat.pred n) s'
          | None =>
              match re_split_scan O s' with
              | piece :: pieces => String c piece :: pieces
              | [] => [String c EmptyString]
              end
          end
      end
  end.

(** [re.split(r"\),\s*\(", s)]. *)
Definition re_split_rows (s : string) : list string := re_split_scan O s.

(** What one match of the token pattern is: a text between single quotes
    that holds no single quote, the word NULL, or a run of digits. *)
Inductive token : Type :=
| Quoted (contents : string)
| Null
| Digits (text : string).

(** The inside of a quoted token and its closing quote at the start of
    [s]: the text before the first quote, when there is a quote. *)
Fixpoint until_quote (s : string) : option string :=
  match s with
  | EmptyString => None
  | String c s' =>
      if Ascii.eqb c "'" then Some EmptyString
      else option_map (String c) (until_quote s')
  end.

(** [\d*] at the start of [s]. *)
Fixpoint span_digits (s : string) : string :=
  match s with
  | EmptyString => EmptyString
  | String c s' => if is_digit c then String c (span_digits s') else EmptyString
  end.

(** The alternation at the start of [s], its branches tried in the order
    of the pattern: the length of the match and the token. *)
Definition match_token (s : string) : option (nat * token) :=
  match s with
  | EmptyString => None
  | String c s' =>
      let quoted :=
        if Ascii.eqb c "'"
        then option_map (fun q => (S (S (String.length q)), Quoted q))
               (until_quote s')
        else None in
      match quoted with
      | Some m => Some m
      | None =>
          if startswith "NULL" s then Some (4%nat, Null)
          else
            match span_digits s with
            | EmptyString => None
            | d => Some (String.length d, Digits d)
            end
      end
  end.

(** The scan of [re.findall]: all the matches, from left to right. *)
Fixpoint re_findall_scan (skip : nat) (s : string) : list token :=
  match s with
  | EmptyString => []
  | String _ s' =>
      match skip with
      | S k => re_findall_scan k s'
      | O =>
          match match_token s with
          | Some (n, t) => t :: re_findall_scan (Nat.pred n) s'
          | None => re_findall_scan O s'
          end
      end
  end.

Definition tokens (row : string) : list token := re_findall_scan O row.

(** The pattern has exactly one capturing group, the one inside the
    quotes, so [re.findall] returns for each match the text of that group,
    which is the empty string when the group took no part in the match. *)
Definition group1 (t : token) : string :=
  match t with
  | Quoted contents => contents
  | Null => EmptyString
  | Digits _ => EmptyString
  end.

(** [re.findall] with the token pattern on [row]. *)
Definition re_findall_columns (row : string) : list string :=
  map group1 (tokens row).

(** ** Configuration *)

(** The required columns and their positions in a row-group, in the order
    of the dictionary, which is the order of the output columns. *)
Definition REQUIRED_FIELDS : list (string * Z) :=
  [ ("LOGIN", 2); ("NAME", 6); ("LAST_NAME", 7); ("EMAIL", 8);
    ("PERSONAL_BIRTHDATE", 16); ("TIMESTAMP_X", 1); ("PERSONAL_PHONE", 18);
    ("PERSONAL_MOBILE", 20); ("PERSONAL_MAILBOX", 23); ("PERSONAL_CITY", 24);
    ("PERSONAL_STATE", 25); ("WORK_CITY", 37); ("PASSWORD", 3);
    ("CHECKWORD", 4) ].

(** Maximum number of rows of a CSV file. *)
Definition LINES_PER_FILE : Z := 10000.

(** ** Statements *)

Definition is_insert (line : string) : bool :=
  startswith "INSERT INTO" (strip line).

Definition get_values (statement : string) : string :=
  let values := partition_tail " VALUES " statement in
  rstrip is_semicolon (strip values).

(** ** Exceptions *)

(** The two classes of exception the script tells apart: an
    [except Exception] clause does not catch [KeyboardInterrupt]. *)
Inductive exn : Type :=
| KeyboardInterrupt
| Exception (msg : string).

Inductive result (A : Type) : Type :=
| Ok (a : A)
| Raise (e : exn).
Arguments Ok {A} a.
Arguments Raise {A} e.

(** [l[i]] on a list: a negative index counts from the end, and an index
    outside the list raises [IndexError]. *)
Definition getitem (l : list string) (i : Z) : result string :=
  let len := Z.of_nat (List.length l) in
  let j := if i <? 0 then i + len else i in
  if (0 <=? j) && (j <? len)
  then Ok (nth (Z.to_nat j) l EmptyString)
  else Raise (Exception "list index out of range").

(** One cell of [result_row]: the conditional expression whose condition
    is [index < len(columns) and columns[index] != "NULL"], whose value is
    [columns[index]] when the condition holds and the empty string
    otherwise. *)
Definition cell (columns : list string) (index : Z) : result string :=
  if index <? Z.of_nat (List.length columns) then
    match getitem columns index with
    | Raise e => Raise e
    | Ok c => if negb (String.eqb c "NULL") then getitem columns index
              else Ok EmptyString
    end
  else Ok EmptyString.

(** The list comprehension over [REQUIRED_FIELDS.items()]; the dictionary
    is the argument [fields]. *)
Fixpoint result_row (fields : list (string * Z)) (columns : list string)
  : result (list string) :=
  match fields with
  | [] => Ok []
  | (_, index) :: rest =>
      match cell columns index with
      | Raise e => Raise e
      | Ok v =>
          match result_row rest columns with
          | Raise e => Raise e
          | Ok vs => Ok (v :: vs)
          end
      end
  end.

(** ** The output files and the state of a run *)

Definition csv_row : Type := list string.
Definition csv_file : Type := list csv_row.

(** What the script owns while it runs: the files closed so far, the
    rows of the open file, the one-element list [line_counter], the
    variable [file_count] and what was printed on [sys.stderr].

    [row_start_log] is a ghost field: it records the value of
    [line_counter[0]] each time the body of the loop of [parse_values] is
    entered.  No statement of the script reads it; it is there so that
    properties of the form "at the start of every row-group" can be
    stated about a whole run. *)
Record state : Type := mkState {
  closed : list csv_file;
  current : csv_file;
  line_counter : Z;
  file_count : Z;
  stderr : list string;
  row_start_log : list Z
}.

(** All the files of a run, [apteka_0.csv] first. *)
Definition files (st : state) : list csv_file := closed st ++ [current st].

(** The state when [apteka_0.csv] has just been opened. *)
Definition initial_state : state := mkState [] [] 0 0 [] [].

(** Computations that read and change the state and may raise. *)
Definition M (A : Type) : Type := state -> result A * state.

Definition ret {A : Type} (a : A) : M A := fun st => (Ok a, st).

Definition raise {A : Type} (e : exn) : M A := fun st => (Raise e, st).

Definition bind {A B : Type} (m : M A) (k : A -> M B) : M B :=
  fun st =>
    match m st with
    | (Ok a, st') => k a st'
    | (Raise e, st') => (Raise e, st')
    end.

Notation "x <- m ;; k" := (bind m (fun x => k))
  (at level 61, m at next level, right associativity).
Notation "m ;;; k" := (bind m (fun _ => k))
  (at level 61, right associativity).

(** A pure computation that may raise, run inside [M]. *)
Definition lift {A : Type} (r : result A) : M A := fun st => (r, st).

(** [print(msg, file=sys.stderr)]. *)
Definition eprint (msg : string) : M unit :=
  fun st => (Ok tt, mkState (closed st) (current st) (line_counter st)
                      (file_count st) (stderr st ++ [msg])
                      (row_start_log st)).

(** [line_counter[0] = n]. *)
Definition set_line_counter (n : Z) : M unit :=
  fun st => (Ok tt, mkState (closed st) (current st) n
                      (file_count st) (stderr st) (row_start_log st)).

Definition get_line_counter : M Z := fun st => (Ok (line_counter st), st).

(** Ghost step: note the counter at the start of a row-group. *)
Definition log_row_start : M unit :=
  fun st => (Ok tt, mkState (closed st) (current st) (line_counter st)
                      (file_count st) (stderr st)
                      (row_start_log st ++ [line_counter st])).

(** [current_file.close()], [file_count += 1] and the [open] of the next
    file, which starts empty. *)
Definition open_next_file : M unit :=
  fun st => (Ok tt, mkState (closed st ++ [current st]) []
                      (line_counter st) (file_count st + 1) (stderr st)
                      (row_start_log st)).

(** The header row, [REQUIRED_FIELDS.keys()]. *)
Definition header (fields : list (string * Z)) : csv_row := map fst fields.

(** What [fileinput.input()] gives at each step: a line, or an exception
    (a file that cannot be read or decoded, an interrupt from the
    keyboard while the script waits for input). *)
Inductive event : Type :=
| Line (text : string)
| Fault (e : exn).

Section Pipeline.

(** The environment: whether writing a row to the open file raises, given
    the rows the file already holds (a full disk, a closed descriptor, an
    interrupt signal delivered during the call).  Opening a file is
    assumed to succeed. *)
Variable writer_raises : csv_file -> csv_row -> option exn.

(** The configured fields: the script reads the module-level dictionary
    [REQUIRED_FIELDS], the embedding takes it as an argument. *)
Variable fields : list (string * Z).

(** [writer.writerow(row)]. *)
Definition writerow (row : csv_row) : M unit :=
  fun st =>
    match writer_raises (current st) row with
    | Some e => (Raise e, st)
    | None => (Ok tt, mkState (closed st) (current st ++ [row])
                        (line_counter st) (file_count st) (stderr st)
                        (row_start_log st))
    end.

(** The body of the loop of [parse_values] for one row-group; the result
    tells whether the function returns [True] from inside the loop. *)
Definition parse_row (row : string) : M bool :=
  log_row_start ;;;
  let columns := re_findall_columns row in
  result_row <- lift (result_row fields columns) ;;
  writerow result_row ;;;
  n <- get_line_counter ;;
  set_line_counter (n + 1) ;;;
  n <- get_line_counter ;;
  if LINES_PER_FILE <=? n
  then set_line_counter 0 ;;; ret true
  else ret false.

(** [for row in rows: ...] followed by [return False]. *)
Fixpoint parse_rows (rows : list string) : M bool :=
  match rows with
  | [] => ret false
  | row :: rest =>
      switch <- parse_row row ;;
      if switch then ret true else parse_rows rest
  end.

Definition parse_values (values : string) : M bool :=
  parse_rows (re_split_rows (strip_chars is_paren values)).

(** [process_insert]: the [except] clause catches [Exception] and lets a
    [KeyboardInterrupt] through. *)
Definition process_insert (statement : string) : M bool :=
  fun st =>
    match parse_values (get_values statement) st with
    | (Raise (Exception e), st') =>
        (eprint ("Error processing statement: " ++ e)%string ;;; ret false) st'
    | r => r
    end.

(** The lines that close the current file and open the next one with its
    header. *)
Definition rotate : M unit :=
  open_next_file ;;; writerow (header fields).

(** [if process_insert(...): <rotate>], as the loop of [main] has it
    twice. *)
Definition flush (buffer : string) : M unit :=
  switch <- process_insert buffer ;;
  if switch then rotate else ret tt.

(** The [for] loop of [main]; the result is the buffer left at the end of
    the input. *)
Fixpoint main_loop (input : list event) (buffer : string) : M string :=
  match input with
  | [] => ret buffer
  | Fault e :: _ => raise e
  | Line text :: rest =>
      let line := strip text in
      if is_insert line then
        (if nonempty buffer then flush buffer else ret tt) ;;;
        main_loop rest line
      else if nonempty buffer then
        let buffer := (buffer ++ " " ++ line)%string in
        if endswith_semicolon line
        then flush buffer ;;; main_loop rest EmptyString
        else main_loop rest buffer
      else main_loop rest buffer
  end.

(** The body of the [try] statement of [main], from the first header to
    the flush at the end of the input; the last [close] leaves the rows
    of the file as they are. *)
Definition main_body (input : list event) : M unit :=
  writerow (header fields) ;;;
  buffer <- main_loop input EmptyString ;;
  (if nonempty buffer then process_insert buffer ;;; ret tt else ret tt).

(** [main] with its two [except] clauses: the exit status of the process
    and the final state. *)
Definition main (input : list event) : Z * state :=
  match main_body input initial_state with
  | (Ok _, st) => (0, st)
  | (Raise KeyboardInterrupt, st) => (0, st)
  | (Raise (Exception e), st) =>
      (1, snd (eprint ("Unhandled exception: " ++ e)%string st))
  end.

End Pipeline.

(** The writer of a run in which no write fails. *)
Definition reliable_writer : csv_file -> csv_row -> option exn :=
  fun _ _ => None.

(** ** Notions used to state the properties *)

(** [sep] occurs in [s]: some suffix of [s] starts with [sep]. *)
Fixpoint contains_substring (sep s : string) : bool :=
  startswith sep s
  || match s with
     | EmptyString => false
     | String _ s' => contains_substring sep s'
     end.

(** Every configured index is a position counted from the left. *)
Definition fields_nonneg (fields : list (string * Z)) : Prop :=
  Forall (fun field => 0 <= snd field) fields.

(** The value of [cell] when it does not raise. *)
Definition cell_value (columns : list string) (index : Z) : string :=
  if index <? Z.of_nat (List.length columns) then
    let c := nth (Z.to_nat index) columns EmptyString in
    if String.eqb c "NULL" then EmptyString else c
  else EmptyString.

(** The value of [result_row] when it does not raise. *)
Definition row_of (fields : list (string * Z)) (columns : list string)
  : csv_row :=
  map (fun field => cell_value columns (snd field)) fields.

(** The output row of a row-group. *)
Definition output_row (fields : list (string * Z)) (row : string) : csv_row :=
  row_of fields (re_findall_columns row).

(** The row-groups of a statement, as [parse_values] splits them. *)
Definition row_groups (statement : string) : list string :=
  re_split_rows (strip_chars is_paren (get_values statement)).

(** The row counter is below the threshold. *)
Definition counter_in_range (n : Z) : Prop := 0 <= n < LINES_PER_FILE.

(** A row that [result_row] can produce. *)
Definition data_row (fields : list (string * Z)) (r : csv_row) : Prop :=
  exists columns, result_row fields columns = Ok r.

(** A file that starts with the header, followed by data rows only. *)
Definition headed_file (fields : list (string * Z)) (f : csv_file) : Prop :=
  exists rows, f = header fields :: rows /\ Forall (data_row fields) rows.

(** A headed file with exactly [LINES_PER_FILE] data rows. *)
Definition full_file (fields : list (string * Z)) (f : csv_file) : Prop :=
  headed_file fields f /\ Z.of_nat (List.length f) = 1 + LINES_PER_FILE.

(** The schema of the example of the specification. *)
Definition example_fields : list (string * Z) := [("X", 0); ("Y", 2); ("Z", 3)].

(** [n] row-groups [('a')], separated by commas. *)
Fixpoint groups (n : nat) : string :=
  match n with
  | O => EmptyString
  | S O => "('a')"
  | S k => ("('a')," ++ groups k)%string
  end.

(** The data rows of all the files of a state. *)
Definition data_rows_written (st : state) : Z :=
  fold_right (fun f acc => Z.of_nat (Nat.pred (List.length f)) + acc) 0
    (files st).

(** ** Assertions on computations and on states *)

(** [hoare P m Q E]: from a state in [P], [m] ends in a state in [Q]
    when it returns and in a state in [E] when it raises. *)
Definition hoare {A : Type} (P : state -> Prop) (m : M A)
  (Q : A -> state -> Prop) (E : exn -> state -> Prop) : Prop :=
  forall st, P st ->
    match m st with
    | (Ok a, st') => Q a st'
    | (Raise e, st') => E e st'
    end.

(** ** The invariants of a run *)

Section Invariants.

Variable writer_raises : csv_file -> csv_row -> option exn.
Variable fields : list (string * Z).

(** [base]: what holds of the closed files, of the counter and of the
    log at any time. *)
Definition base (st : state) : Prop :=
  Forall (full_file fields) (closed st)
  /\ counter_in_range (line_counter st)
  /\ file_count st = Z.of_nat (List.length (closed st))
  /\ Forall counter_in_range (row_start_log st).

(** [live]: the open file has its header and as many data rows as the
    counter says. *)
Definition live (st : state) : Prop :=
  base st
  /\ headed_file fields (current st)
  /\ Z.of_nat (List.length (current st)) = 1 + line_counter st.

(** [ripe]: the open file has just received its last row and the counter
    is back to zero. *)
Definition ripe (st : state) : Prop :=
  base st /\ full_file fields (current st) /\ line_counter st = 0.

(** [fresh]: the writer refused the header of the file just opened. *)
Definition fresh (st : state) : Prop :=
  base st /\ current st = []
  /\ writer_raises [] (header fields) <> None.

(** The state in which [process_insert] returns [switch]. *)
Definition after_statement (switch : bool) (st : state) : Prop :=
  if switch then ripe st else live st.

(** What holds of the state in which a run ends. *)
Definition settled (st : state) : Prop := live st \/ ripe st \/ fresh st.

End Invariants.

(** The rows of a statement that are written before the function
    returns, when the counter starts at [c]. *)
Definition rows_taken (c : Z) (rows : list string) : list string :=
  firstn (Z.to_nat (LINES_PER_FILE - c)) rows.

(** The diagnostic stream holds exactly [log]. *)
Definition quiet (log : list string) (st : state) : Prop := stderr st = log.

(** ** A statement with many row-groups *)

(** The text between the outer parentheses of [groups (S n)]. *)
Fixpoint inner (n : nat) : string :=
  match n with
  | O => "'a'"
  | S k => ("'a'),(" ++ inner k)%string
  end.

(** The statement whose values are [groups (S n)], on one line. *)
Definition big_statement (n : nat) : string :=
  ("INSERT INTO t VALUES " ++ groups (S n) ++ ";")%string.

(** The output row of the row-group ['a']: no configured field has
    index 0. *)
Definition blank_row : csv_row := repeat EmptyString 14.

(** The state after the header of the first file, with a reliable
    writer. *)
Definition started : state :=
  mkState [] [header REQUIRED_FIELDS] 0 0 [] [].

(** ** Notions used by the further properties *)

(** Every character of [s] satisfies [p]. *)
Fixpoint all_chars (p : ascii -> bool) (s : string) : bool :=
  match s with
  | EmptyString => true
  | String c s' => p c && all_chars p s'
  end.

(** The character [c] occurs in [s]. *)
Fixpoint has_char (c : ascii) (s : string) : bool :=
  match s with
  | EmptyString => false
  | String x s' => Ascii.eqb x c || has_char c s'
  end.

(** The buffer of [main] after the continuation lines [lines] have been
    appended to [buffer]. *)
Definition join_lines (buffer : string) (lines : list string) : string :=
  fold_left (fun acc line => (acc ++ " " ++ strip line)%string) lines buffer.

(** The statements [buffers] flushed one after the other. *)
Fixpoint flush_all (writer_raises : csv_file -> csv_row -> option exn)
  (fields : list (string * Z)) (buffers : list string) : M unit :=
  match buffers with
  | [] => ret tt
  | buffer :: rest =>
      flush writer_raises fields buffer ;;;
      flush_all writer_raises fields rest
  end.

(** A quoted token holds no quote. *)
Definition clean_token (t : token) : Prop :=
  match t with
  | Quoted q => has_char "'" q = false
  | _ => True
  end.

(** ** Counting rows *)

(** The rows of a list of files, headers included. *)
Definition rows_in (fs : list csv_file) : Z :=
  fold_right (fun f acc => Z.of_nat (List.length f) + acc) 0 fs.

(** The rows of all the files of a state, headers included. *)
Definition total_rows (st : state) : Z := rows_in (files st).

(** One row for each file opened and one for each row-group entered,
    less the rows that are in the files: the writes that did not take
    place. *)
Definition surplus (st : state) : Z :=
  file_count st + 1 + Z.of_nat (List.length (row_start_log st))
  - total_rows st.

Section Accounting.

Variable writer_raises : csv_file -> csv_row -> option exn.
Variable fields : list (string * Z).

(** No write fails and no row is refused by [result_row]. *)
Definition dependable : Prop :=
  (forall f r, writer_raises f r = None) /\ fields_nonneg fields.

(** The surplus is at least [k], and exactly [k] in a dependable run. *)
Definition kept (k : Z) (st : state) : Prop :=
  k <= surplus st /\ (dependable -> surplus st = k).

End Accounting.

Ltac unfold_monad :=
  cbv [bind ret raise lift eprint set_line_counter get_line_counter
       log_row_start open_next_file writerow].

Ltac fields_of_state :=
  cbn [closed current line_counter file_count stderr row_start_log] in *.

(** ** Strings and rows: basic facts *)

Lemma startswith_app (sep s : string) :
  startswith sep (sep ++ s)%string = true.
Proof.
  induction sep as [|a sep IH]; simpl; [reflexivity|].
  now rewrite Ascii.eqb_refl, IH.
Qed.

Lemma startswith_split (sep s : string) :
  startswith sep s = true -> exists post, s = (sep ++ post)%string.
Proof.
  revert s; induction sep as [|a sep IH]; intros s H; simpl in *.
  - now exists s.
  - destruct s as [|b s]; [discriminate|].
    apply andb_true_iff in H as [Hab Hs].
    apply Ascii.eqb_eq in Hab; subst b.
    destruct (IH _ Hs) as [post ->]. now exists post.
Qed.

(** [contains_substring] decides the occurrence of a substring. *)
Lemma contains_substring_spec (sep s : string) :
  contains_substring sep s = true <->
  exists pre post, s = (pre ++ sep ++ post)%string.
Proof.
  split.
  - induction s as [|c s IH]; simpl; intros H.
    + apply orb_true_iff in H as [H|H]; [|discriminate].
      destruct (startswith_split _ _ H) as [post E].
      exists EmptyString, post. exact E.
    + apply orb_true_iff in H as [H|H].
      * destruct (startswith_split _ _ H) as [post E].
        exists EmptyString, post. exact E.
      * destruct (IH H) as (pre & post & ->).
        now exists (String c pre), post.
  - intros (pre & post & ->).
    induction pre as [|c pre IH].
    + change (EmptyString ++ sep ++ post)%string with (sep ++ post)%string.
      pose proof (startswith_app sep post) as H.
      destruct (sep ++ post)%string; simpl; now rewrite H.
    + simpl. simpl in IH. now rewrite IH, orb_true_r.
Qed.

Lemma partition_tail_absent (sep s : string) :
  contains_substring sep s = false -> partition_tail sep s = EmptyString.
Proof.
  induction s as [|c s IH]; simpl; intros H;
    apply orb_false_iff in H as [H1 H2]; rewrite H1; auto.
Qed.

Lemma re_split_scan_nonempty (skip : nat) (s : string) :
  re_split_scan skip s <> [].
Proof.
  revert skip; induction s as [|c s IH]; intros skip; cbn [re_split_scan];
    [discriminate|].
  destruct skip as [|k]; [|apply IH].
  destruct (match_separator (String c s)); [discriminate|].
  destruct (re_split_scan 0 s); discriminate.
Qed.

Lemma row_groups_nonempty (statement : string) : row_groups statement <> [].
Proof. apply re_split_scan_nonempty. Qed.

Lemma getitem_in_range (l : list string) (i : Z) :
  0 <= i < Z.of_nat (List.length l) ->
  getitem l i = Ok (nth (Z.to_nat i) l EmptyString).
Proof.
  intros [H0 H1]. unfold getitem.
  destruct (Z.ltb_spec i 0) as [?|_]; [lia|].
  destruct (Z.leb_spec 0 i); [|lia].
  destruct (Z.ltb_spec i (Z.of_nat (List.length l))); [reflexivity|lia].
Qed.

Lemma cell_nonneg (columns : list string) (index : Z) :
  0 <= index -> cell columns index = Ok (cell_value columns index).
Proof.
  intros H. unfold cell, cell_value.
  destruct (Z.ltb_spec index (Z.of_nat (List.length columns))) as [Hlt|_];
    [|reflexivity].
  rewrite getitem_in_range by lia.
  now destruct (String.eqb _ "NULL").
Qed.

Lemma result_row_nonneg (fields : list (string * Z)) (columns : list string) :
  fields_nonneg fields ->
  result_row fields columns = Ok (row_of fields columns).
Proof.
  induction 1 as [|[name index] fields Hi _ IH]; simpl; [reflexivity|].
  simpl in Hi. now rewrite cell_nonneg, IH.
Qed.

Lemma REQUIRED_FIELDS_nonneg : fields_nonneg REQUIRED_FIELDS.
Proof.
  unfold fields_nonneg, REQUIRED_FIELDS. repeat constructor; simpl; lia.
Qed.

(** ** The rules of the program logic *)

Lemma hoare_ret {A : Type} (P : state -> Prop) (a : A)
  (Q : A -> state -> Prop) (E : exn -> state -> Prop) :
  (forall st, P st -> Q a st) -> hoare P (ret a) Q E.
Proof. intros H st HP. now apply H. Qed.

Lemma hoare_raise {A : Type} (P : state -> Prop) (e : exn)
  (Q : A -> state -> Prop) (E : exn -> state -> Prop) :
  (forall st, P st -> E e st) -> hoare P (raise e) Q E.
Proof. intros H st HP. now apply H. Qed.

Lemma hoare_bind {A B : Type} (P : state -> Prop) (m : M A) (k : A -> M B)
  (R : A -> state -> Prop) (Q : B -> state -> Prop)
  (E : exn -> state -> Prop) :
  hoare P m R E -> (forall a, hoare (R a) (k a) Q E) ->
  hoare P (bind m k) Q E.
Proof.
  intros Hm Hk st HP. unfold bind. specialize (Hm st HP).
  destruct (m st) as [[a|e] st']; [now apply Hk|exact Hm].
Qed.

Lemma hoare_weaken {A : Type} (P P' : state -> Prop) (m : M A)
  (Q Q' : A -> state -> Prop) (E E' : exn -> state -> Prop) :
  hoare P' m Q' E' ->
  (forall st, P st -> P' st) ->
  (forall a st, Q' a st -> Q a st) ->
  (forall e st, E' e st -> E e st) ->
  hoare P m Q E.
Proof.
  intros Hm HP HQ HE st Hst. specialize (Hm st (HP st Hst)).
  destruct (m st) as [[a|e] st']; auto.
Qed.

Lemma LINES_PER_FILE_pos : 0 < LINES_PER_FILE.
Proof. reflexivity. Qed.

(** ** What one row-group does, for any writer *)

Section Steps.

Variable writer_raises : csv_file -> csv_row -> option exn.
Variable fields : list (string * Z).

Lemma parse_row_unfold (row : string) (st : state) :
  parse_row writer_raises fields row st =
  let log := row_start_log st ++ [line_counter st] in
  let kept := mkState (closed st) (current st) (line_counter st)
                (file_count st) (stderr st) log in
  match result_row fields (re_findall_columns row) with
  | Raise e => (Raise e, kept)
  | Ok r =>
      match writer_raises (current st) r with
      | Some e => (Raise e, kept)
      | None =>
          let n := line_counter st + 1 in
          if LINES_PER_FILE <=? n
          then (Ok true, mkState (closed st) (current st ++ [r]) 0
                           (file_count st) (stderr st) log)
          else (Ok false, mkState (closed st) (current st ++ [r]) n
                            (file_count st) (stderr st) log)
      end
  end.
Proof.
  unfold parse_row. unfold_monad. fields_of_state.
  destruct (result_row fields (re_findall_columns row)) as [r|e];
    [|reflexivity].
  destruct (writer_raises (current st) r) as [e|]; [reflexivity|].
  fields_of_state.
  now destruct (LINES_PER_FILE <=? line_counter st + 1).
Qed.

Lemma headed_file_snoc (f : csv_file) (r : csv_row) :
  headed_file fields f -> data_row fields r -> headed_file fields (f ++ [r]).
Proof.
  intros (rows & -> & Hrows) Hr. exists (rows ++ [r]). split; [reflexivity|].
  apply Forall_app. split; [exact Hrows|]. now constructor.
Qed.

Lemma parse_row_inv (row : string) :
  hoare (live fields) (parse_row writer_raises fields row)
    (after_statement fields) (fun _ => live fields).
Proof.
  intros st (Hb & Hf & Hlen). rewrite parse_row_unfold. cbv zeta.
  destruct Hb as (Hclosed & Hc & Hcount & Hlog).
  assert (Hlog' : Forall counter_in_range
                    (row_start_log st ++ [line_counter st]))
    by (apply Forall_app; split; [exact Hlog|now constructor]).
  assert (Hkept : live fields
                     (mkState (closed st) (current st) (line_counter st)
                        (file_count st) (stderr st)
                        (row_start_log st ++ [line_counter st])))
    by (repeat split; fields_of_state; try apply Hc; assumption).
  destruct (result_row fields (re_findall_columns row)) as [r|e] eqn:Er;
    [|exact Hkept].
  destruct (writer_raises (current st) r) as [e|]; [exact Hkept|].
  assert (Hr : data_row fields r) by (now exists (re_findall_columns row)).
  unfold counter_in_range in Hc.
  destruct (Z.leb_spec LINES_PER_FILE (line_counter st + 1)) as [Hge|Hlt];
    unfold after_statement, ripe, live, base, full_file, counter_in_range;
    fields_of_state; rewrite ?length_app; cbn [List.length];
    pose proof LINES_PER_FILE_pos;
    repeat split; auto using headed_file_snoc; lia.
Qed.

Lemma parse_rows_inv (rows : list string) :
  hoare (live fields) (parse_rows writer_raises fields rows)
    (after_statement fields) (fun _ => live fields).
Proof.
  induction rows as [|row rest IH]; cbn [parse_rows].
  - apply hoare_ret. auto.
  - eapply hoare_bind; [apply parse_row_inv|].
    intros [|]; [apply hoare_ret; auto|exact IH].
Qed.

Lemma process_insert_inv (statement : string) :
  hoare (live fields) (process_insert writer_raises fields statement)
    (after_statement fields)
    (fun e st => e = KeyboardInterrupt /\ live fields st).
Proof.
  intros st Hst. unfold process_insert, parse_values.
  pose proof (parse_rows_inv
                (re_split_rows (strip_chars is_paren (get_values statement)))
                st Hst) as H.
  destruct (parse_rows _ _ _ st) as [[b|[|msg]] st']; auto.
Qed.

Lemma rotate_inv :
  hoare (ripe fields) (rotate writer_raises fields)
    (fun _ => live fields) (fun _ => fresh writer_raises fields).
Proof.
  intros st ((Hclosed & Hc & Hcount & Hlog) & Hfull & Hzero).
  unfold rotate. unfold_monad. fields_of_state.
  assert (Hbase : forall f, base fields (mkState (closed st ++ [current st]) f
                              (line_counter st) (file_count st + 1)
                              (stderr st) (row_start_log st))).
  { intros f. unfold base. fields_of_state. repeat split; try apply Hc; auto.
    - apply Forall_app. split; [exact Hclosed|now constructor].
    - rewrite length_app. cbn [List.length]. lia. }
  destruct (writer_raises [] (header fields)) as [e|] eqn:Ew.
  - split; [apply Hbase|]. fields_of_state. split; [reflexivity|].
    rewrite Ew. discriminate.
  - split; [apply Hbase|]. fields_of_state. split.
    + exists []. split; [reflexivity|constructor].
    + cbn [List.length app]. lia.
Qed.

Lemma flush_inv (buffer : string) :
  hoare (live fields) (flush writer_raises fields buffer)
    (fun _ => live fields)
    (fun _ st => live fields st \/ fresh writer_raises fields st).
Proof.
  unfold flush. apply hoare_bind with (R := after_statement fields).
  - eapply hoare_weaken; [apply process_insert_inv|auto|auto|].
    intros e st [_ H]. now left.
  - intros [|]; cbn [after_statement].
    + eapply hoare_weaken; [apply rotate_inv|auto|auto|].
      intros e st H. now right.
    + apply hoare_ret. auto.
Qed.

Lemma main_loop_inv (input : list event) (buffer : string) :
  hoare (live fields) (main_loop writer_raises fields input buffer)
    (fun _ => live fields)
    (fun _ st => live fields st \/ fresh writer_raises fields st).
Proof.
  revert buffer. induction input as [|[text|e] rest IH]; intros buffer;
    cbn [main_loop].
  - apply hoare_ret. auto.
  - destruct (is_insert (strip text)).
    + apply hoare_bind with (R := fun _ => live fields); [|intros _; apply IH].
      destruct (nonempty buffer); [apply flush_inv|apply hoare_ret; auto].
    + destruct (nonempty buffer); [|apply IH].
      destruct (endswith_semicolon (strip text)); [|apply IH].
      apply hoare_bind with (R := fun _ => live fields);
        [apply flush_inv|intros _; apply IH].
  - apply hoare_raise. auto.
Qed.

Lemma initial_base : base fields initial_state.
Proof.
  unfold base, initial_state, counter_in_range. fields_of_state.
  pose proof LINES_PER_FILE_pos. repeat split; auto; lia.
Qed.

Lemma main_body_inv (input : list event) :
  match main_body writer_raises fields input initial_state with
  | (_, st) => settled writer_raises fields st
  end.
Proof.
  unfold main_body.
  assert (H : hoare (fun st => st = initial_state)
                (writerow writer_raises (header fields))
                (fun _ => live fields) (fun _ => fresh writer_raises fields)).
  { intros st ->. unfold_monad. cbn [current initial_state].
    destruct (writer_raises [] (header fields)) as [e|] eqn:Ew.
    - split; [apply initial_base|]. split; [reflexivity|].
      rewrite Ew. discriminate.
    - split; [|split].
      + exact initial_base.
      + exists []. split; [reflexivity|constructor].
      + reflexivity. }
  assert (G : hoare (fun st => st = initial_state)
                (main_body writer_raises fields input)
                (fun _ => settled writer_raises fields)
                (fun _ => settled writer_raises fields)).
  { unfold main_body. apply hoare_bind with (R := fun _ => live fields).
    - eapply hoare_weaken; [apply H|auto|auto|].
      intros e st Hf. right. now right.
    - intros _. apply hoare_bind with (R := fun _ => live fields).
      + eapply hoare_weaken; [apply main_loop_inv|auto|auto|].
        intros e st [Hl|Hf]; [now left|right; now right].
      + intros buffer. cbv beta. destruct (nonempty buffer).
        * apply hoare_bind with (R := after_statement fields).
          -- eapply hoare_weaken; [apply process_insert_inv|auto|auto|].
             intros e st [_ Hl]. now left.
          -- intros [|]; apply hoare_ret; cbn [after_statement];
               unfold settled; auto.
        * apply hoare_ret. unfold settled. auto. }
  specialize (G initial_state eq_refl). unfold main_body in G.
  destruct (bind _ _ initial_state) as [[a|e] st]; exact G.
Qed.

Lemma main_settled (input : list event) :
  settled writer_raises fields (snd (main writer_raises fields input)).
Proof.
  unfold main. pose proof (main_body_inv input) as H.
  destruct (main_body writer_raises fields input initial_state)
    as [[a|[|msg]] st]; cbn [snd]; auto.
Qed.

End Steps.

(** ** Runs in which no write fails *)

Section Reliable.

Variable fields : list (string * Z).
Hypothesis nonneg : fields_nonneg fields.

Lemma parse_row_reliable (row : string) (st : state) :
  parse_row reliable_writer fields row st =
  let n := line_counter st + 1 in
  (Ok (LINES_PER_FILE <=? n),
   mkState (closed st) (current st ++ [output_row fields row])
     (if LINES_PER_FILE <=? n then 0 else n)
     (file_count st) (stderr st)
     (row_start_log st ++ [line_counter st])).
Proof.
  rewrite parse_row_unfold, (result_row_nonneg _ _ nonneg).
  unfold reliable_writer, output_row. cbv zeta.
  now destruct (LINES_PER_FILE <=? line_counter st + 1).
Qed.

Lemma parse_rows_reliable (rows : list string) (st : state) :
  counter_in_range (line_counter st) ->
  exists st',
    parse_rows reliable_writer fields rows st =
      (Ok (LINES_PER_FILE - line_counter st <=? Z.of_nat (List.length rows)),
       st')
    /\ closed st' = closed st
    /\ current st' =
         current st
         ++ map (output_row fields) (rows_taken (line_counter st) rows)
    /\ line_counter st' =
         (if LINES_PER_FILE - line_counter st <=? Z.of_nat (List.length rows)
          then 0 else line_counter st + Z.of_nat (List.length rows))
    /\ file_count st' = file_count st
    /\ stderr st' = stderr st.
Proof.
  revert st. unfold counter_in_range, rows_taken.
  induction rows as [|row rest IH]; intros st Hc.
  - exists st. cbn [parse_rows List.length]. unfold ret.
    destruct (Z.leb_spec (LINES_PER_FILE - line_counter st) (Z.of_nat 0));
      [lia|].
    rewrite firstn_nil, app_nil_r. repeat split; lia.
  - cbn [parse_rows]. unfold bind at 1. rewrite parse_row_reliable. cbv zeta.
    replace (Z.to_nat (LINES_PER_FILE - line_counter st))
      with (S (Z.to_nat (LINES_PER_FILE - line_counter st - 1))) by lia.
    cbn [firstn map].
    destruct (Z.leb_spec LINES_PER_FILE (line_counter st + 1)) as [Hge|Hlt].
    + eexists. unfold ret. split; [|fields_of_state].
      * destruct (Z.leb_spec (LINES_PER_FILE - line_counter st)
                   (Z.of_nat (List.length (row :: rest))));
          [reflexivity|cbn [List.length] in *; lia].
      * replace (Z.to_nat (LINES_PER_FILE - line_counter st - 1)) with O
          by lia.
        cbn [firstn map].
        destruct (Z.leb_spec (LINES_PER_FILE - line_counter st)
                    (Z.of_nat (List.length (row :: rest))));
          [repeat split; reflexivity|cbn [List.length] in *; lia].
    + match goal with |- context [parse_rows _ _ rest ?s] =>
        destruct (IH s) as (st' & Hrun & Hcl & Hcur & Hctr & Hfc & Herr)
      end; [fields_of_state; lia|].
      fields_of_state. exists st'. rewrite Hrun, Hcur, Hctr.
      replace (LINES_PER_FILE - (line_counter st + 1))
        with (LINES_PER_FILE - line_counter st - 1) by lia.
      rewrite <- app_assoc. cbn [app List.length].
      destruct (Z.leb_spec (LINES_PER_FILE - line_counter st - 1)
                  (Z.of_nat (List.length rest)));
        destruct (Z.leb_spec (LINES_PER_FILE - line_counter st)
                    (Z.of_nat (S (List.length rest)))); try lia;
        repeat split; auto; lia.
Qed.

(** Without any assumption on the counter: the rows written are appended
    to the open file, there is one at least when there is a row-group,
    and nothing else changes. *)
Lemma parse_rows_reliable_appends (rows : list string) (st : state) :
  exists b st' written,
    parse_rows reliable_writer fields rows st = (Ok b, st')
    /\ (rows <> [] -> written <> [])
    /\ (List.length written <= List.length rows)%nat
    /\ closed st' = closed st
    /\ current st' = current st ++ written
    /\ file_count st' = file_count st
    /\ stderr st' = stderr st.
Proof.
  revert st. induction rows as [|row rest IH]; intros st.
  - exists false, st, []. cbn [parse_rows]. unfold ret.
    rewrite app_nil_r. repeat split; auto.
  - cbn [parse_rows]. unfold bind at 1. rewrite parse_row_reliable. cbv zeta.
    destruct (LINES_PER_FILE <=? line_counter st + 1).
    + eexists true, _, [output_row fields row]. unfold ret.
      fields_of_state. repeat split; cbn [List.length]; try lia.
      discriminate.
    + match goal with |- context [parse_rows _ _ rest ?s] =>
        destruct (IH s) as (b & st' & written & Hrun & _ & Hlen & Hcl & Hcur
                            & Hfc & Herr)
      end.
      fields_of_state.
      exists b, st', (output_row fields row :: written).
      rewrite Hrun, Hcur, <- app_assoc. cbn [app List.length].
      repeat split; auto; try lia. discriminate.
Qed.

Lemma process_insert_reliable_appends (statement : string) (st : state) :
  exists b st' written,
    process_insert reliable_writer fields statement st = (Ok b, st')
    /\ written <> []
    /\ (List.length written <= List.length (row_groups statement))%nat
    /\ closed st' = closed st
    /\ current st' = current st ++ written
    /\ file_count st' = file_count st
    /\ stderr st' = stderr st.
Proof.
  destruct (parse_rows_reliable_appends (row_groups statement) st)
    as (b & st' & written & Hrun & Hne & Hlen & H).
  exists b, st', written. unfold process_insert, parse_values.
  fold (row_groups statement). rewrite Hrun.
  repeat split; try apply H; auto.
  apply Hne, row_groups_nonempty.
Qed.

Lemma process_insert_quiet (log : list string) (statement : string) :
  hoare (quiet log) (process_insert reliable_writer fields statement)
    (fun _ => quiet log) (fun _ _ => False).
Proof.
  intros st Hst.
  destruct (process_insert_reliable_appends statement st)
    as (b & st' & written & -> & _ & _ & _ & _ & _ & Herr).
  unfold quiet in *. congruence.
Qed.

Lemma flush_quiet (log : list string) (buffer : string) :
  hoare (quiet log) (flush reliable_writer fields buffer)
    (fun _ => quiet log) (fun _ _ => False).
Proof.
  unfold flush. apply hoare_bind with (R := fun _ => quiet log).
  - apply process_insert_quiet.
  - intros [|]; [|apply hoare_ret; auto].
    intros st Hst. unfold rotate. unfold_monad. exact Hst.
Qed.

(** The loop goes through a run of lines and reaches what follows. *)
Lemma main_loop_lines (log : list string) (lines : list string)
  (rest : list event) (Q : string -> state -> Prop)
  (E : exn -> state -> Prop) :
  (forall buffer,
      hoare (quiet log) (main_loop reliable_writer fields rest buffer) Q E) ->
  forall buffer,
    hoare (quiet log)
      (main_loop reliable_writer fields (map Line lines ++ rest) buffer) Q E.
Proof.
  intros Hrest. induction lines as [|text lines IH]; intros buffer;
    cbn [map app main_loop]; [apply Hrest|].
  assert (Hflush : forall b,
             hoare (quiet log) (flush reliable_writer fields b)
               (fun _ => quiet log) E).
  { intros b. eapply hoare_weaken; [apply (flush_quiet log)|auto|auto|].
    intros e st []. }
  destruct (is_insert (strip text)).
  - apply hoare_bind with (R := fun _ => quiet log); [|intros _; apply IH].
    destruct (nonempty buffer); [apply Hflush|apply hoare_ret; auto].
  - destruct (nonempty buffer); [|apply IH].
    destruct (endswith_semicolon (strip text)); [|apply IH].
    apply hoare_bind with (R := fun _ => quiet log);
      [apply Hflush|intros _; apply IH].
Qed.

(** A run over lines only completes, with status 0 and an empty
    diagnostic stream. *)
Lemma main_lines_only (lines : list string) :
  exists st,
    main reliable_writer fields (map Line lines) = (0, st) /\ stderr st = [].
Proof.
  assert (G : hoare (quiet []) (main_body reliable_writer fields
                                  (map Line lines))
                (fun _ => quiet []) (fun _ _ => False)).
  { unfold main_body. apply hoare_bind with (R := fun _ => quiet []).
    - intros st Hst. unfold_monad. exact Hst.
    - intros _. apply hoare_bind with (R := fun _ => quiet []).
      + rewrite <- (app_nil_r (map Line lines)).
        apply main_loop_lines. intros buffer. apply hoare_ret. auto.
      + intros buffer. destruct (nonempty buffer); [|apply hoare_ret; auto].
        apply hoare_bind with (R := fun _ => quiet []);
          [apply process_insert_quiet|intros _; apply hoare_ret; auto]. }
  specialize (G initial_state eq_refl). unfold main.
  destruct (main_body _ _ _ initial_state) as [[a|e] st]; [|destruct G].
  now exists st.
Qed.

(** A run whose input raises after some lines ends with that exception
    and nothing printed so far. *)
Lemma main_body_fault (lines : list string) (e : exn) (rest : list event) :
  exists st,
    main_body reliable_writer fields (map Line lines ++ Fault e :: rest)
      initial_state = (Raise e, st)
    /\ stderr st = [].
Proof.
  assert (G : hoare (quiet [])
                (main_body reliable_writer fields
                   (map Line lines ++ Fault e :: rest))
                (fun _ _ => False) (fun e' st => e' = e /\ quiet [] st)).
  { unfold main_body.
    apply hoare_bind with (R := fun _ => quiet []).
    - intros st Hst. unfold_monad. exact Hst.
    - intros _. apply hoare_bind with (R := fun _ _ => False).
      + apply main_loop_lines. intros buffer. cbn [main_loop].
        apply hoare_raise. auto.
      + intros buffer st []. }
  specialize (G initial_state eq_refl).
  destruct (main_body _ _ _ initial_state) as [[a|e'] st]; [destruct G|].
  destruct G as [-> Hq]. now exists st.
Qed.

End Reliable.

(** ** What a statement can make the script print, for any writer *)

Lemma parse_rows_outcome (writer_raises : csv_file -> csv_row -> option exn)
  (fields : list (string * Z)) (rows : list string) (st : state) :
  fields_nonneg fields ->
  match parse_rows writer_raises fields rows st with
  | (Ok _, st') => stderr st' = stderr st
  | (Raise e, st') =>
      stderr st' = stderr st /\ exists f r, writer_raises f r = Some e
  end.
Proof.
  intros nonneg. revert st. induction rows as [|row rest IH]; intros st;
    cbn [parse_rows]; [reflexivity|].
  unfold bind at 1.
  rewrite parse_row_unfold, (result_row_nonneg _ _ nonneg). cbv zeta.
  destruct (writer_raises (current st) _) as [e|] eqn:Ew.
  - split; [reflexivity|]. eauto.
  - destruct (LINES_PER_FILE <=? line_counter st + 1); [reflexivity|].
    match goal with |- context [parse_rows _ _ rest ?s] =>
      specialize (IH s); destruct (parse_rows _ _ rest s) as [[b|e] st']
    end; exact IH.
Qed.

Lemma nth_error_row_of (fields : list (string * Z)) (columns : list string)
  (k : nat) (name : string) (index : Z) :
  nth_error fields k = Some (name, index) ->
  nth_error (row_of fields columns) k = Some (cell_value columns index).
Proof.
  intros H. unfold row_of. now rewrite nth_error_map, H.
Qed.

Lemma cell_value_missing_or_null (row : string) (index : Z) :
  0 <= index ->
  Z.of_nat (List.length (tokens row)) <= index
  \/ nth_error (tokens row) (Z.to_nat index) = Some Null ->
  cell_value (re_findall_columns row) index = EmptyString.
Proof.
  intros H0 H. unfold cell_value, re_findall_columns.
  rewrite length_map.
  destruct (Z.ltb_spec index (Z.of_nat (List.length (tokens row))))
    as [Hlt|Hge]; [|reflexivity].
  destruct H as [H|H]; [lia|].
  erewrite nth_error_nth by (rewrite nth_error_map, H; reflexivity).
  reflexivity.
Qed.

(** ** Facts about the statement with many row-groups *)

Lemma append_assoc (a b c : string) :
  ((a ++ b) ++ c = a ++ b ++ c)%string.
Proof. induction a as [|x a IH]; simpl; [reflexivity|now rewrite IH]. Qed.

Lemma rstrip_keeps (p : ascii -> bool) (s : string) (c : ascii) :
  p c = false ->
  rstrip p (s ++ String c EmptyString) = (s ++ String c EmptyString)%string.
Proof.
  intros Hc. induction s as [|x s IH]; simpl.
  - now rewrite Hc.
  - rewrite IH. now destruct s.
Qed.

Lemma rstrip_drops (p : ascii -> bool) (s : string) (c : ascii) :
  p c = true -> rstrip p (s ++ String c EmptyString) = rstrip p s.
Proof.
  intros Hc. induction s as [|x s IH]; simpl.
  - now rewrite Hc.
  - now rewrite IH.
Qed.

Lemma endswith_semicolon_app (s : string) :
  endswith_semicolon (s ++ ";") = true.
Proof.
  induction s as [|x s IH]; [reflexivity|].
  simpl. destruct (s ++ ";")%string eqn:E; [now destruct s|exact IH].
Qed.

Lemma inner_ends_with_quote (n : nat) :
  exists s, inner n = (s ++ "'")%string.
Proof.
  induction n as [|n [s IH]].
  - now exists "'a".
  - exists ("'a'),(" ++ s)%string. cbn [inner]. rewrite IH.
    now rewrite append_assoc.
Qed.

Lemma groups_inner (n : nat) :
  groups (S n) = ("(" ++ inner n ++ ")")%string.
Proof.
  induction n as [|n IH]; [reflexivity|].
  change (groups (S (S n))) with ("('a')," ++ groups (S n))%string.
  rewrite IH. reflexivity.
Qed.

Lemma strip_parens_groups (n : nat) :
  strip_chars is_paren (groups (S n)) = inner n.
Proof.
  rewrite groups_inner. unfold strip_chars.
  assert (H : lstrip is_paren ("(" ++ inner n ++ ")") = (inner n ++ ")")%string)
    by (destruct n; reflexivity).
  rewrite H, rstrip_drops by reflexivity.
  destruct (inner_ends_with_quote n) as [s ->].
  now apply rstrip_keeps.
Qed.

Lemma re_split_inner (n : nat) :
  re_split_rows (inner n) = repeat "'a'" (S n).
Proof.
  unfold re_split_rows. induction n as [|n IH]; [reflexivity|].
  cbn [inner]. 
  change (re_split_scan 0 ("'a'),(" ++ inner n))
    with ("'a'" :: re_split_scan 0 (inner n)).
  now rewrite IH.
Qed.

Lemma strip_groups_line (n : nat) :
  strip (groups (S n) ++ ";") = (groups (S n) ++ ";")%string.
Proof.
  unfold strip, strip_chars.
  assert (H : lstrip is_space (groups (S n) ++ ";")
              = (groups (S n) ++ ";")%string)
    by (rewrite groups_inner; reflexivity).
  rewrite H. now apply rstrip_keeps.
Qed.

Lemma strip_big_statement (n : nat) :
  strip (big_statement n) = big_statement n.
Proof.
  unfold strip, strip_chars, big_statement.
  change (lstrip is_space ("INSERT INTO t VALUES " ++ groups (S n) ++ ";"))
    with (("INSERT INTO t VALUES " ++ groups (S n)) ++ ";")%string.
  now apply rstrip_keeps.
Qed.

Lemma get_values_big_statement (n : nat) :
  get_values (big_statement n) = groups (S n).
Proof.
  unfold get_values, big_statement.
  change (partition_tail " VALUES "
            ("INSERT INTO t VALUES " ++ groups (S n) ++ ";"))
    with (groups (S n) ++ ";")%string.
  rewrite strip_groups_line, rstrip_drops by reflexivity.
  rewrite groups_inner.
  change ("(" ++ inner n ++ ")")%string with (("(" ++ inner n) ++ ")")%string.
  now apply rstrip_keeps.
Qed.

Lemma row_groups_big_statement (n : nat) :
  row_groups (big_statement n) = repeat "'a'" (S n).
Proof.
  unfold row_groups.
  now rewrite get_values_big_statement, strip_parens_groups, re_split_inner.
Qed.

Lemma map_firstn_repeat {A B : Type} (f : A -> B) (x : A) (k m : nat) :
  map f (firstn k (repeat x m)) = repeat (f x) (Nat.min k m).
Proof.
  revert m. induction k as [|k IH]; intros [|m]; cbn; try reflexivity.
  now rewrite IH.
Qed.

Lemma process_insert_big_statement (n : nat) (st : state) :
  counter_in_range (line_counter st) ->
  exists st',
    process_insert reliable_writer REQUIRED_FIELDS (big_statement n) st
    = (Ok (LINES_PER_FILE - line_counter st <=? Z.of_nat (S n)), st')
    /\ closed st' = closed st
    /\ current st' =
         current st
         ++ repeat blank_row
              (Nat.min (Z.to_nat (LINES_PER_FILE - line_counter st)) (S n))
    /\ line_counter st' =
         (if LINES_PER_FILE - line_counter st <=? Z.of_nat (S n)
          then 0 else line_counter st + Z.of_nat (S n))
    /\ file_count st' = file_count st
    /\ stderr st' = stderr st.
Proof.
  intros Hc.
  destruct (parse_rows_reliable REQUIRED_FIELDS REQUIRED_FIELDS_nonneg
              (row_groups (big_statement n)) st Hc)
    as (st' & Hrun & Hcl & Hcur & Hctr & Hfc & Herr).
  exists st'. unfold process_insert, parse_values.
  fold (row_groups (big_statement n)). rewrite Hrun.
  rewrite row_groups_big_statement in *. rewrite repeat_length in *.
  unfold rows_taken in Hcur. rewrite map_firstn_repeat in Hcur.
  repeat split; assumption.
Qed.

Lemma started_in_range : counter_in_range (line_counter started).
Proof. split; [discriminate|reflexivity]. Qed.

(** The statement alone in the input, on one line: it is processed by
    the flush at the end of the input. *)
Lemma main_big_statement_one_line (n : nat) :
  LINES_PER_FILE <= Z.of_nat (S n) ->
  exists st,
    main reliable_writer REQUIRED_FIELDS [Line (big_statement n)] = (0, st)
    /\ closed st = []
    /\ current st =
         header REQUIRED_FIELDS :: repeat blank_row (Z.to_nat LINES_PER_FILE)
    /\ line_counter st = 0
    /\ file_count st = 0.
Proof.
  intros Hn.
  destruct (process_insert_big_statement n started started_in_range)
    as (st & Hrun & Hcl & Hcur & Hctr & Hfc & _).
  exists st. unfold main, main_body.
  unfold bind at 1. unfold writerow at 1. unfold reliable_writer at 1.
  cbn [current initial_state closed line_counter file_count stderr
       row_start_log app].
  fold started. unfold bind at 1. cbn [main_loop].
  rewrite strip_big_statement.
  assert (Hins : is_insert (big_statement n) = true).
  { unfold is_insert. now rewrite strip_big_statement. }
  rewrite Hins. cbn [nonempty]. unfold bind at 1, ret at 1.
  unfold ret at 1.
  change (nonempty (big_statement n)) with true. cbv iota.
  unfold bind at 1. rewrite Hrun. unfold ret.
  split; [reflexivity|].
  change (line_counter started) with 0 in *.
  change (current started) with [header REQUIRED_FIELDS] in *.
  rewrite Z.sub_0_r in *.
  destruct (Z.leb_spec LINES_PER_FILE (Z.of_nat (S n))); [|lia].
  rewrite Nat.min_l in Hcur by lia.
  repeat split; assumption.
Qed.

(** The same statement on two lines: it is processed when its last line
    is read, and the file is rotated. *)
Lemma main_big_statement_two_lines (n : nat) :
  LINES_PER_FILE <= Z.of_nat (S n) ->
  exists st,
    main reliable_writer REQUIRED_FIELDS
      [Line "INSERT INTO t VALUES"; Line (groups (S n) ++ ";")] = (0, st)
    /\ closed st =
         [header REQUIRED_FIELDS :: repeat blank_row (Z.to_nat LINES_PER_FILE)]
    /\ current st = [header REQUIRED_FIELDS]
    /\ line_counter st = 0
    /\ file_count st = 1.
Proof.
  intros Hn.
  destruct (process_insert_big_statement n started started_in_range)
    as (st & Hrun & Hcl & Hcur & Hctr & Hfc & Herr).
  change (line_counter started) with 0 in *.
  change (current started) with [header REQUIRED_FIELDS] in *.
  rewrite Z.sub_0_r in *.
  destruct (Z.leb_spec LINES_PER_FILE (Z.of_nat (S n))); [|lia].
  rewrite Nat.min_l in Hcur by lia.
  eexists. unfold main, main_body.
  unfold bind at 1. unfold writerow at 1. unfold reliable_writer at 1.
  cbn [current initial_state closed line_counter file_count stderr
       row_start_log app].
  fold started. unfold bind at 1. cbn [main_loop].
  change (strip "INSERT INTO t VALUES") with "INSERT INTO t VALUES".
  change (is_insert "INSERT INTO t VALUES") with true. cbv iota.
  cbn [nonempty]. unfold bind at 1, ret at 1.
  rewrite strip_groups_line.
  assert (Hins : is_insert (groups (S n) ++ ";") = false).
  { unfold is_insert. rewrite strip_groups_line, groups_inner. reflexivity. }
  rewrite Hins, endswith_semicolon_app.
  change ("INSERT INTO t VALUES" ++ " " ++ groups (S n) ++ ";")%string
    with (big_statement n).
  unfold bind at 1, flush, bind at 1. rewrite Hrun.
  unfold rotate. unfold_monad. unfold reliable_writer.
  cbn [closed current line_counter file_count stderr row_start_log nonempty].
  split; [reflexivity|].
  cbn [closed current line_counter file_count stderr row_start_log].
  rewrite Hcl, Hcur, Hctr, Hfc.
  repeat split; reflexivity.
Qed.

(** * Further lemmas *)

(** ** Stripping *)

Lemma lstrip_split (p : ascii -> bool) (s : string) :
  exists ws, s = (ws ++ lstrip p s)%string /\ all_chars p ws = true.
Proof.
  induction s as [|c s (ws & E & Hws)]; [now exists EmptyString|].
  cbn [lstrip]. destruct (p c) eqn:Hc.
  - exists (String c ws). cbn. rewrite Hc, Hws.
    split; [now f_equal|reflexivity].
  - now exists EmptyString.
Qed.

Lemma lstrip_all (p : ascii -> bool) (ws s : string) :
  all_chars p ws = true -> lstrip p (ws ++ s) = lstrip p s.
Proof.
  induction ws as [|c ws IH]; cbn; [reflexivity|].
  intros H. apply andb_true_iff in H as [Hc Hws]. now rewrite Hc, IH.
Qed.

Lemma rstrip_split (p : ascii -> bool) (s : string) :
  exists ws, s = (rstrip p s ++ ws)%string /\ all_chars p ws = true.
Proof.
  induction s as [|c s (ws & E & Hws)]; [now exists EmptyString|].
  cbn [rstrip]. destruct (rstrip p s) as [|x r] eqn:Er.
  - destruct (p c) eqn:Hc.
    + exists (String c ws). cbn in *. rewrite Hc, Hws.
      split; [now f_equal|reflexivity].
    + exists ws. cbn in *. split; [now f_equal|exact Hws].
  - exists ws. cbn in *. split; [now f_equal|exact Hws].
Qed.

Lemma rstrip_through (p : ascii -> bool) (a : string) (c : ascii)
  (b : string) :
  p c = false ->
  rstrip p (a ++ String c b) = (a ++ String c (rstrip p b))%string.
Proof.
  intros Hc. induction a as [|x a IH]; cbn.
  - rewrite Hc. now destruct (rstrip p b).
  - rewrite IH. now destruct a.
Qed.

Lemma startswith_app_l (pre a b : string) :
  startswith pre a = true -> startswith pre (a ++ b) = true.
Proof.
  intros H. destruct (startswith_split _ _ H) as [post ->].
  rewrite append_assoc. apply startswith_app.
Qed.

Lemma is_insert_iff_aux (line : string) :
  is_insert line = true <->
  exists ws rest,
    all_chars is_space ws = true
    /\ line = (ws ++ "INSERT INTO" ++ rest)%string.
Proof.
  unfold is_insert, strip, strip_chars. split.
  - intros H.
    destruct (lstrip_split is_space line) as (ws & E & Hws).
    destruct (rstrip_split is_space (lstrip is_space line)) as (tl & E' & _).
    destruct (startswith_split _ _ H) as [post Hpost].
    exists ws, (post ++ tl)%string. split; [exact Hws|].
    rewrite E at 1. rewrite E' at 1. rewrite Hpost.
    now rewrite append_assoc.
  - intros (ws & rest & Hws & ->).
    rewrite lstrip_all by exact Hws.
    change (lstrip is_space ("INSERT INTO" ++ rest))
      with ("INSERT INT" ++ String "O" rest)%string.
    now rewrite rstrip_through.
Qed.

(** ** The values portion *)

Lemma rstrip_semicolon_end (s : string) :
  endswith_semicolon (rstrip is_semicolon s) = false.
Proof.
  induction s as [|c s IH]; [reflexivity|]. cbn [rstrip].
  destruct (rstrip is_semicolon s) as [|x r] eqn:E.
  - destruct (is_semicolon c) eqn:Hc; [reflexivity|]. cbn. exact Hc.
  - exact IH.
Qed.

Lemma startswith_long (sep a b : string) :
  (String.length sep <= String.length a)%nat ->
  startswith sep (a ++ b) = startswith sep a.
Proof.
  revert a. induction sep as [|x sep IH]; intros a H; [reflexivity|].
  destruct a as [|y a]; cbn in H; [lia|]. cbn.
  rewrite IH by lia. reflexivity.
Qed.

Lemma length_append (a b : string) :
  String.length (a ++ b) = (String.length a + String.length b)%nat.
Proof. induction a as [|x a IH]; cbn; [reflexivity|now rewrite IH]. Qed.

Lemma partition_tail_first (pre post : string) :
  contains_substring " VALUES " (pre ++ " VALUES") = false ->
  partition_tail " VALUES " (pre ++ " VALUES " ++ post) = post.
Proof.
  induction pre as [|c pre IH]; intros H; [reflexivity|].
  cbn [append contains_substring] in H.
  apply orb_false_iff in H as [Hhere Hlater].
  change (String c pre ++ " VALUES " ++ post)%string
    with (String c (pre ++ " VALUES " ++ post)).
  cbn [partition_tail].
  assert (E : startswith " VALUES " (String c (pre ++ " VALUES " ++ post))
              = false).
  { change (pre ++ " VALUES " ++ post)%string
      with (pre ++ " VALUES" ++ " " ++ post)%string.
    rewrite <- append_assoc.
    change (String c ((pre ++ " VALUES") ++ " " ++ post))
      with (String c (pre ++ " VALUES") ++ " " ++ post)%string.
    rewrite startswith_long; [exact Hhere|].
    cbn [String.length]. rewrite length_append. cbn. lia. }
  rewrite E. now apply IH.
Qed.

(** ** Tokens and cells *)

Lemma cell_value_choice (columns : list string) (index : Z) :
  cell_value columns index = EmptyString
  \/ In (cell_value columns index) columns.
Proof.
  unfold cell_value.
  destruct (index <? Z.of_nat (List.length columns)); [|now left].
  destruct (nth_in_or_default (Z.to_nat index) columns EmptyString)
    as [Hin|Hd].
  - destruct (String.eqb _ "NULL"); [now left|now right].
  - rewrite Hd. now left.
Qed.

Lemma column_choice (row v : string) :
  In v (re_findall_columns row) ->
  v = EmptyString \/ In (Quoted v) (tokens row).
Proof.
  unfold re_findall_columns. intros H. apply in_map_iff in H as (t & E & Ht).
  destruct t as [q| |d]; cbn in E; subst v; auto.
Qed.

Lemma until_quote_no_quote (s q : string) :
  until_quote s = Some q -> has_char "'" q = false.
Proof.
  revert q. induction s as [|c s IH]; intros q; cbn; [discriminate|].
  destruct (Ascii.eqb c "'") eqn:Hc.
  - intros [= <-]. reflexivity.
  - destruct (until_quote s) as [q'|]; [|discriminate].
    intros [= <-]. cbn. now rewrite Hc, IH.
Qed.

Lemma match_token_clean (s : string) (n : nat) (t : token) :
  match_token s = Some (n, t) -> clean_token t.
Proof.
  destruct s as [|c s]; cbn [match_token]; [discriminate|].
  destruct (Ascii.eqb c "'").
  - destruct (until_quote s) as [q|] eqn:Eq; cbn [option_map].
    + intros [= <- <-]. apply (until_quote_no_quote _ _ Eq).
    + destruct (startswith "NULL" (String c s)); [now intros [= <- <-]|].
      destruct (span_digits (String c s)); [discriminate|].
      now intros [= <- <-].
  - destruct (startswith "NULL" (String c s)); [now intros [= <- <-]|].
    destruct (span_digits (String c s)); [discriminate|].
    now intros [= <- <-].
Qed.

Lemma re_findall_scan_clean (skip : nat) (s : string) :
  Forall clean_token (re_findall_scan skip s).
Proof.
  revert skip. induction s as [|c s IH]; intros skip; cbn [re_findall_scan];
    [constructor|].
  destruct skip as [|k]; [|apply IH].
  destruct (match_token (String c s)) as [[n t]|] eqn:E; [|apply IH].
  constructor; [apply (match_token_clean _ _ _ E)|apply IH].
Qed.

Lemma output_row_cells (fields : list (string * Z)) (row : string) :
  Forall (fun v => v = EmptyString \/ In (Quoted v) (tokens row))
    (output_row fields row).
Proof.
  unfold output_row, row_of. apply Forall_forall. intros v Hv.
  apply in_map_iff in Hv as ([name index] & <- & _). cbn [snd].
  destruct (cell_value_choice (re_findall_columns row) index) as [E|Hin];
    [now left|now apply column_choice].
Qed.

Lemma output_row_clean (fields : list (string * Z)) (row : string) :
  Forall (fun v => has_char "'" v = false) (output_row fields row).
Proof.
  eapply Forall_impl; [|apply output_row_cells].
  intros v [->|Hin]; [reflexivity|].
  pose proof (re_findall_scan_clean 0 row) as H.
  rewrite Forall_forall in H. exact (H _ Hin).
Qed.

Lemma cell_value_quoted (row : string) (index : Z) (q : string) :
  0 <= index ->
  nth_error (tokens row) (Z.to_nat index) = Some (Quoted q) ->
  cell_value (re_findall_columns row) index
  = if String.eqb q "NULL" then EmptyString else q.
Proof.
  intros H0 H. unfold cell_value, re_findall_columns.
  assert (Hlt : (Z.to_nat index < List.length (tokens row))%nat)
    by (apply nth_error_Some; rewrite H; discriminate).
  rewrite length_map.
  destruct (Z.ltb_spec index (Z.of_nat (List.length (tokens row))));
    [|lia].
  erewrite nth_error_nth by (rewrite nth_error_map, H; reflexivity).
  reflexivity.
Qed.

(** ** Width of the rows *)

Lemma result_row_length (fields : list (string * Z)) (columns : list string)
  (r : csv_row) :
  result_row fields columns = Ok r -> List.length r = List.length fields.
Proof.
  revert r. induction fields as [|[name index] fields IH]; intros r; cbn.
  - now intros [= <-].
  - destruct (cell columns index); [|discriminate].
    destruct (result_row fields columns) as [vs|]; [|discriminate].
    intros [= <-]. cbn. now rewrite (IH vs).
Qed.

Lemma headed_file_width (fields : list (string * Z)) (f : csv_file) :
  headed_file fields f ->
  Forall (fun r => List.length r = List.length fields) f.
Proof.
  intros (rows & -> & Hrows). constructor.
  - unfold header. apply length_map.
  - eapply Forall_impl; [|exact Hrows].
    intros r [columns Hr]. exact (result_row_length _ _ _ Hr).
Qed.

Lemma settled_width (writer_raises : csv_file -> csv_row -> option exn)
  (fields : list (string * Z)) (st : state) :
  settled writer_raises fields st ->
  Forall (Forall (fun r => List.length r = List.length fields)) (files st).
Proof.
  intros H. unfold files. apply Forall_app.
  assert (Hclosed : base fields st ->
            Forall (Forall (fun r => List.length r = List.length fields))
              (closed st)).
  { intros (Hcl & _). eapply Forall_impl; [|exact Hcl].
    intros f [Hf _]. now apply headed_file_width. }
  destruct H as [(Hb & Hf & _)|[(Hb & [Hf _] & _)|(Hb & Hnil & _)]];
    (split; [now apply Hclosed|]); constructor; try constructor;
    try now apply headed_file_width.
  rewrite Hnil. constructor.
Qed.

(** ** What a statement does to the state, for any writer and schema *)

Lemma parse_rows_appends (writer_raises : csv_file -> csv_row -> option exn)
  (fields : list (string * Z)) (rows : list string) (st : state) :
  exists written,
    match parse_rows writer_raises fields rows st with
    | (r, st') =>
        closed st' = closed st
        /\ current st' = current st ++ written
        /\ file_count st' = file_count st
        /\ stderr st' = stderr st
        /\ Forall (data_row fields) written
        /\ (List.length written <= List.length rows)%nat
        /\ match r with
           | Ok true => line_counter st' = 0
           | _ => line_counter st' =
                    line_counter st + Z.of_nat (List.length written)
           end
    end.
Proof.
  revert st. induction rows as [|row rest IH]; intros st.
  - exists []. cbn [parse_rows]. unfold ret. rewrite app_nil_r.
    cbn [List.length]. repeat split; auto. lia.
  - cbn [parse_rows]. unfold bind at 1. rewrite parse_row_unfold. cbv zeta.
    destruct (result_row fields (re_findall_columns row)) as [r|e] eqn:Er.
    2:{ exists []. fields_of_state. rewrite app_nil_r. cbn [List.length].
        repeat split; auto; lia. }
    destruct (writer_raises (current st) r) as [e|].
    { exists []. fields_of_state. rewrite app_nil_r. cbn [List.length].
      repeat split; auto; lia. }
    assert (Hr : data_row fields r) by (now exists (re_findall_columns row)).
    destruct (LINES_PER_FILE <=? line_counter st + 1).
    + exists [r]. unfold ret. fields_of_state. cbn [List.length].
      repeat split; auto; lia.
    + match goal with |- context [parse_rows _ _ rest ?s] =>
        destruct (IH s) as (written & H);
        destruct (parse_rows writer_raises fields rest s) as [res st']
      end.
      fields_of_state.
      destruct H as (Hcl & Hcur & Hfc & Herr & Hdata & Hlen & Hctr).
      exists (r :: written). rewrite Hcur, <- app_assoc. cbn [app List.length].
      repeat split; auto; try lia.
      destruct res as [[|]|]; lia.
Qed.

(** ** Stripping twice *)

Lemma rstrip_idempotent (p : ascii -> bool) (s : string) :
  rstrip p (rstrip p s) = rstrip p s.
Proof.
  induction s as [|c s IH]; [reflexivity|]. cbn [rstrip].
  destruct (rstrip p s) as [|x r] eqn:E.
  - destruct (p c) eqn:Hc; [reflexivity|]. cbn. now rewrite Hc.
  - cbn [rstrip] in *. rewrite IH. reflexivity.
Qed.

Lemma lstrip_rstrip_lstrip (p : ascii -> bool) (s : string) :
  lstrip p (rstrip p (lstrip p s)) = rstrip p (lstrip p s).
Proof.
  induction s as [|c s IH]; [reflexivity|]. cbn [lstrip].
  destruct (p c) eqn:Hc; [exact IH|].
  pose proof (rstrip_through p EmptyString c s Hc) as E.
  cbn [append] in E. rewrite E. cbn. now rewrite Hc.
Qed.

Lemma strip_idempotent (s : string) : strip (strip s) = strip s.
Proof.
  unfold strip, strip_chars.
  now rewrite lstrip_rstrip_lstrip, rstrip_idempotent.
Qed.

Lemma is_insert_strip (s : string) : is_insert (strip s) = is_insert s.
Proof. unfold is_insert. now rewrite strip_idempotent. Qed.

Lemma is_insert_nonempty (s : string) :
  is_insert s = true -> nonempty (strip s) = true.
Proof. unfold is_insert. now destruct (strip s). Qed.

(** ** Laws of the monad *)

Lemma bind_same {A B : Type} (m : M A) (k k' : A -> M B) (st : state) :
  (forall a st', k a st' = k' a st') -> bind m k st = bind m k' st.
Proof.
  intros H. unfold bind. destruct (m st) as [[a|e] st']; [apply H|reflexivity].
Qed.

Lemma bind_assoc {A B C : Type} (m : M A) (k : A -> M B) (h : B -> M C)
  (st : state) :
  bind (bind m k) h st = bind m (fun a => bind (k a) h) st.
Proof.
  unfold bind. destruct (m st) as [[a|e] st']; reflexivity.
Qed.

(** ** The main loop on lines of a known kind *)

Section Loop.

Variable writer_raises : csv_file -> csv_row -> option exn.
Variable fields : list (string * Z).

Lemma main_loop_skips (lines : list string) (rest : list event)
  (st : state) :
  Forall (fun text => is_insert text = false) lines ->
  main_loop writer_raises fields (map Line lines ++ rest) EmptyString st
  = main_loop writer_raises fields rest EmptyString st.
Proof.
  induction 1 as [|text lines Ht _ IH]; [reflexivity|].
  cbn [map app main_loop nonempty]. now rewrite is_insert_strip, Ht.
Qed.

Lemma nonempty_append (a b : string) :
  nonempty a = true -> nonempty (a ++ b) = true.
Proof. now destruct a. Qed.

Lemma main_loop_continues (lines : list string) (last : string)
  (rest : list event) (buffer : string) (st : state) :
  nonempty buffer = true ->
  Forall (fun text => is_insert text = false
                      /\ endswith_semicolon (strip text) = false) lines ->
  is_insert last = false ->
  endswith_semicolon (strip last) = true ->
  main_loop writer_raises fields (map Line (lines ++ [last]) ++ rest)
    buffer st
  = (flush writer_raises fields (join_lines buffer (lines ++ [last])) ;;;
     main_loop writer_raises fields rest EmptyString) st.
Proof.
  intros Hb Hlines Hlast Hend. revert buffer Hb.
  induction Hlines as [|text lines [Ht He] _ IH]; intros buffer Hb.
  - cbn [map app main_loop]. rewrite is_insert_strip, Hlast, Hb, Hend.
    reflexivity.
  - cbn [map app main_loop]. rewrite is_insert_strip, Ht, Hb, He.
    rewrite IH by now apply nonempty_append.
    reflexivity.
Qed.

Lemma main_loop_inserts (lines : list string) (last : string)
  (buffer : string) (st : state) :
  Forall (fun text => is_insert text = true) lines ->
  is_insert last = true ->
  main_loop writer_raises fields (map Line (lines ++ [last])) buffer st
  = ((if nonempty buffer then flush writer_raises fields buffer else ret tt)
     ;;; flush_all writer_raises fields (map strip lines)
     ;;; ret (strip last)) st.
Proof.
  intros Hlines Hlast. revert buffer st.
  induction Hlines as [|text lines Ht _ IH]; intros buffer st;
    cbn [map app main_loop flush_all].
  - rewrite is_insert_strip, Hlast.
    apply bind_same. intros [] st'. reflexivity.
  - rewrite is_insert_strip, Ht.
    apply bind_same. intros [] st'.
    rewrite IH, (is_insert_nonempty _ Ht). symmetry. apply bind_assoc.
Qed.

Lemma main_loop_app (first second : list event) (buffer : string)
  (st : state) :
  main_loop writer_raises fields (first ++ second) buffer st
  = (left_over <- main_loop writer_raises fields first buffer ;;
     main_loop writer_raises fields second left_over) st.
Proof.
  revert buffer st.
  induction first as [|[text|e] first IH]; intros buffer st;
    cbn [app main_loop]; [reflexivity| |reflexivity].
  destruct (is_insert (strip text)).
  - rewrite bind_assoc. apply bind_same. intros [] st'. apply IH.
  - destruct (nonempty buffer); [|apply IH].
    destruct (endswith_semicolon (strip text)); [|apply IH].
    rewrite bind_assoc. apply bind_same. intros [] st'. apply IH.
Qed.

End Loop.

(** ** Splitting into row-groups *)

Lemma space_not_open (c : ascii) :
  is_space c = true -> Ascii.eqb c "(" = false.
Proof.
  intros H. destruct (Ascii.eqb c "(") eqn:E; [|reflexivity].
  apply Ascii.eqb_eq in E. subst c. discriminate H.
Qed.

Lemma match_blanks_open_blanks (ws rest : string) :
  all_chars is_space ws = true ->
  match_blanks_open (ws ++ String "(" rest) = Some (S (String.length ws)).
Proof.
  induction ws as [|c ws IH]; cbn; [reflexivity|].
  intros H. apply andb_true_iff in H as [Hc Hws].
  now rewrite (space_not_open _ Hc), Hc, IH.
Qed.

Lemma re_split_scan_skip (x y : string) :
  re_split_scan (String.length x) (x ++ y) = re_split_scan 0 y.
Proof. induction x as [|c x IH]; [reflexivity|exact IH]. Qed.

Lemma re_split_rows_cut (a ws b : string) :
  contains_substring ")," a = false ->
  all_chars is_space ws = true ->
  re_split_rows (a ++ ")," ++ ws ++ "(" ++ b) = a :: re_split_rows b.
Proof.
  intros Ha Hws. unfold re_split_rows.
  induction a as [|c a IH].
  - change (EmptyString ++ ")," ++ ws ++ "(" ++ b)%string
      with (String ")" (String "," (ws ++ String "(" b))).
    cbn [re_split_scan match_separator].
    change (Ascii.eqb ")" ")" && Ascii.eqb "," ",") with true. cbv iota.
    rewrite (match_blanks_open_blanks _ _ Hws). cbn [option_map Nat.pred].
    cbn [re_split_scan]. f_equal.
    replace (S (String.length ws)) with (String.length (ws ++ "("))
      by (rewrite length_append; cbn; lia).
    replace (ws ++ String "(" b)%string with ((ws ++ "(") ++ b)%string
      by (now rewrite append_assoc).
    apply re_split_scan_skip.
  - cbn [contains_substring] in Ha. apply orb_false_iff in Ha as [Hhere Hlater].
    change (String c a ++ ")," ++ ws ++ "(" ++ b)%string
      with (String c (a ++ ")," ++ ws ++ "(" ++ b)).
    cbn [re_split_scan].
    assert (E : match_separator (String c (a ++ ")," ++ ws ++ "(" ++ b))
                = None).
    { cbn [startswith] in Hhere. unfold match_separator.
      destruct a as [|d a]; cbn [append].
      - destruct (Ascii.eqb c ")"); reflexivity.
      - destruct (Ascii.eqb ")" c) eqn:E1.
        + apply Ascii.eqb_eq in E1. subst c.
          cbn [andb] in Hhere. destruct (Ascii.eqb "," d) eqn:E2;
            [discriminate Hhere|].
          rewrite (Ascii.eqb_sym d ","), E2. reflexivity.
        + rewrite (Ascii.eqb_sym c ")"), E1. reflexivity. }
    rewrite E, (IH Hlater). reflexivity.
Qed.

Lemma match_blanks_open_app (x y : string) (n : nat) :
  match_blanks_open x = Some n -> match_blanks_open (x ++ y) = Some n.
Proof.
  revert n. induction x as [|c x IH]; intros n; cbn; [discriminate|].
  destruct (Ascii.eqb c "("); [auto|].
  destruct (is_space c); [|discriminate].
  destruct (match_blanks_open x) as [m|]; [|discriminate].
  intros [= <-]. now rewrite (IH m).
Qed.

Lemma match_separator_app (x y : string) (n : nat) :
  match_separator x = Some n -> match_separator (x ++ y) = Some n.
Proof.
  unfold match_separator. destruct x as [|c1 [|c2 x]]; try discriminate.
  cbn [append]. destruct (Ascii.eqb c1 ")" && Ascii.eqb c2 ",");
    [|discriminate].
  destruct (match_blanks_open x) as [m|] eqn:E; [|discriminate].
  intros [= <-]. now rewrite (match_blanks_open_app _ _ _ E).
Qed.

Lemma re_split_scan_head (s piece : string) (pieces : list string) :
  re_split_scan 0 s = piece :: pieces ->
  exists rest, s = (piece ++ rest)%string.
Proof.
  revert piece pieces. induction s as [|c s IH]; intros piece pieces;
    cbn [re_split_scan].
  - intros [= <- <-]. now exists EmptyString.
  - destruct (match_separator (String c s)).
    + intros [= <- <-]. now exists (String c s).
    + destruct (re_split_scan 0 s) as [|p ps] eqn:E.
      * intros [= <- <-]. exists s. reflexivity.
      * intros [= <- <-]. destruct (IH _ _ eq_refl) as [rest ->].
        now exists rest.
Qed.

Lemma re_split_scan_separator_free (skip : nat) (s : string) :
  Forall (fun piece => forall k, match_separator (drop k piece) = None)
    (re_split_scan skip s).
Proof.
  revert skip. induction s as [|c s IH]; intros skip; cbn [re_split_scan].
  - constructor; [|constructor]. now intros [|k].
  - destruct skip as [|n]; [|apply IH].
    destruct (match_separator (String c s)) as [n|] eqn:E.
    + constructor; [now intros [|k]|apply IH].
    + pose proof (IH O) as H.
      destruct (re_split_scan 0 s) as [|p ps] eqn:Es.
      * constructor; [|constructor]. now intros [|[|k]].
      * inversion H as [|? ? Hp Hps]; subst. constructor; [|exact Hps].
        intros [|k]; [|apply Hp]. cbn [drop].
        destruct (re_split_scan_head _ _ _ Es) as [rest ->].
        destruct (match_separator (String c p)) as [m|] eqn:Em;
          [|reflexivity].
        pose proof (match_separator_app _ rest _ Em) as Hm.
        cbn [append] in Hm. congruence.
Qed.

(** ** Quoted tokens *)

Lemma until_quote_first (q rest : string) :
  has_char "'" q = false ->
  until_quote (q ++ String "'" rest) = Some q.
Proof.
  induction q as [|c q IH]; cbn; [reflexivity|].
  intros H. apply orb_false_iff in H as [Hc Hq]. now rewrite Hc, IH.
Qed.

Lemma re_findall_scan_skip (x y : string) :
  re_findall_scan (String.length x) (x ++ y) = re_findall_scan 0 y.
Proof. induction x as [|c x IH]; [reflexivity|exact IH]. Qed.

Lemma tokens_quoted (q rest : string) :
  has_char "'" q = false ->
  tokens ("'" ++ q ++ "'" ++ rest) = Quoted q :: tokens rest.
Proof.
  intros Hq. unfold tokens.
  change ("'" ++ q ++ "'" ++ rest)%string
    with (String "'" (q ++ String "'" rest)).
  cbn [re_findall_scan match_token].
  change (Ascii.eqb "'" "'") with true. cbv iota.
  rewrite (until_quote_first _ _ Hq). cbn [option_map Nat.pred]. f_equal.
  replace (S (String.length q)) with (String.length (q ++ "'"))
    by (rewrite length_append; cbn; lia).
  replace (q ++ String "'" rest)%string with ((q ++ "'") ++ rest)%string
    by (now rewrite append_assoc).
  apply re_findall_scan_skip.
Qed.

(** ** Accounting for the rows written *)

Lemma rows_in_app (a b : list csv_file) :
  rows_in (a ++ b) = rows_in a + rows_in b.
Proof.
  induction a as [|f a IH]; cbn [app rows_in fold_right]; [reflexivity|].
  fold (rows_in (a ++ b)). fold (rows_in a). lia.
Qed.

Lemma total_rows_eq (st : state) :
  total_rows st = rows_in (closed st) + Z.of_nat (List.length (current st)).
Proof.
  unfold total_rows, files. rewrite rows_in_app.
  cbn [rows_in fold_right]. lia.
Qed.

Ltac surplus_of_state :=
  unfold kept, surplus; rewrite ?total_rows_eq; fields_of_state;
  rewrite ?rows_in_app, ?length_app; cbn [rows_in fold_right List.length].

Section Tally.

Variable writer_raises : csv_file -> csv_row -> option exn.
Variable fields : list (string * Z).



Lemma parse_row_kept (k : Z) (row : string) :
  hoare (kept writer_raises fields k) (parse_row writer_raises fields row)
    (fun _ => kept writer_raises fields k)
    (fun _ => kept writer_raises fields k).
Proof.
  intros st [Hle Heq]. rewrite parse_row_unfold. cbv zeta.
  revert Hle Heq. surplus_of_state. intros Hle Heq.
  destruct (result_row fields (re_findall_columns row)) as [r|e] eqn:Er.
  2:{ surplus_of_state. split; [lia|]. intros [_ Hn].
      rewrite (result_row_nonneg _ _ Hn) in Er. discriminate. }
  destruct (writer_raises (current st) r) as [e|] eqn:Ew.
  { surplus_of_state. split; [lia|]. intros [Hw _].
    rewrite Hw in Ew. discriminate. }
  destruct (LINES_PER_FILE <=? line_counter st + 1); surplus_of_state;
    (split; [lia|]); intros Hd; specialize (Heq Hd); lia.
Qed.

Lemma parse_rows_kept (k : Z) (rows : list string) :
  hoare (kept writer_raises fields k) (parse_rows writer_raises fields rows)
    (fun _ => kept writer_raises fields k)
    (fun _ => kept writer_raises fields k).
Proof.
  induction rows as [|row rest IH]; cbn [parse_rows].
  - apply hoare_ret. auto.
  - apply hoare_bind with (R := fun _ => kept writer_raises fields k);
      [apply parse_row_kept|].
    intros [|]; [apply hoare_ret; auto|exact IH].
Qed.

Lemma process_insert_kept (k : Z) (statement : string) :
  hoare (kept writer_raises fields k)
    (process_insert writer_raises fields statement)
    (fun _ => kept writer_raises fields k)
    (fun _ => kept writer_raises fields k).
Proof.
  intros st Hst. unfold process_insert, parse_values.
  pose proof (parse_rows_kept k
                (re_split_rows (strip_chars is_paren (get_values statement)))
                st Hst) as H.
  destruct (parse_rows _ _ _ st) as [[b|[|msg]] st']; auto.
Qed.

Lemma rotate_kept (k : Z) :
  hoare (kept writer_raises fields k) (rotate writer_raises fields)
    (fun _ => kept writer_raises fields k)
    (fun _ => kept writer_raises fields k).
Proof.
  intros st. surplus_of_state. intros [Hle Heq].
  unfold rotate. unfold_monad. fields_of_state.
  destruct (writer_raises [] (header fields)) as [e|] eqn:Ew;
    surplus_of_state.
  - split; [lia|]. intros [Hw _]. rewrite Hw in Ew. discriminate.
  - split; [lia|]. intros Hd. specialize (Heq Hd). lia.
Qed.

Lemma flush_kept (k : Z) (buffer : string) :
  hoare (kept writer_raises fields k) (flush writer_raises fields buffer)
    (fun _ => kept writer_raises fields k)
    (fun _ => kept writer_raises fields k).
Proof.
  unfold flush.
  apply hoare_bind with (R := fun _ => kept writer_raises fields k).
  - apply process_insert_kept.
  - intros [|]; [apply rotate_kept|apply hoare_ret; auto].
Qed.

Lemma main_loop_kept (k : Z) (input : list event) (buffer : string) :
  hoare (kept writer_raises fields k)
    (main_loop writer_raises fields input buffer)
    (fun _ => kept writer_raises fields k)
    (fun _ => kept writer_raises fields k).
Proof.
  revert buffer. induction input as [|[text|e] rest IH]; intros buffer;
    cbn [main_loop].
  - apply hoare_ret. auto.
  - destruct (is_insert (strip text)).
    + apply hoare_bind with (R := fun _ => kept writer_raises fields k);
        [|intros _; apply IH].
      destruct (nonempty buffer); [apply flush_kept|apply hoare_ret; auto].
    + destruct (nonempty buffer); [|apply IH].
      destruct (endswith_semicolon (strip text)); [|apply IH].
      apply hoare_bind with (R := fun _ => kept writer_raises fields k);
        [apply flush_kept|intros _; apply IH].
  - apply hoare_raise. auto.
Qed.

(** At the end of a run no row is unaccounted for: the rows of the files
    are at most one per file and one per row-group, and exactly that many
    in a dependable run. *)
Lemma main_kept (input : list event) :
  kept writer_raises fields 0 (snd (main writer_raises fields input)).
Proof.
  assert (H : hoare (fun st => st = initial_state)
                (writerow writer_raises (header fields))
                (fun _ => kept writer_raises fields 0)
                (fun _ => kept writer_raises fields 0)).
  { intros st ->. unfold_monad. cbn [current initial_state].
    destruct (writer_raises [] (header fields)) as [e|] eqn:Ew;
      unfold initial_state; surplus_of_state.
    - split; [lia|]. intros [Hw _]. rewrite Hw in Ew. discriminate.
    - split; [lia|]. intros _. lia. }
  assert (G : hoare (fun st => st = initial_state)
                (main_body writer_raises fields input)
                (fun _ => kept writer_raises fields 0)
                (fun _ => kept writer_raises fields 0)).
  { unfold main_body.
    apply hoare_bind with (R := fun _ => kept writer_raises fields 0);
      [exact H|].
    intros _. apply hoare_bind with (R := fun _ => kept writer_raises fields 0);
      [apply main_loop_kept|].
    intros buffer. destruct (nonempty buffer); [|apply hoare_ret; auto].
    apply hoare_bind with (R := fun _ => kept writer_raises fields 0);
      [apply process_insert_kept|intros _; apply hoare_ret; auto]. }
  specialize (G initial_state eq_refl). unfold main.
  destruct (main_body writer_raises fields input initial_state)
    as [[a|[|msg]] st]; cbn [snd]; auto.
Qed.

End Tally.

(** ** Flushing when no write fails *)

Lemma flush_reliable (fields : list (string * Z)) (buffer : string)
  (st : state) :
  fields_nonneg fields ->
  exists st',
    flush reliable_writer fields buffer st = (Ok tt, st')
    /\ stderr st' = stderr st.
Proof.
  intros Hn.
  destruct (process_insert_reliable_appends fields Hn buffer st)
    as (b & st' & written & Hrun & _ & _ & _ & _ & _ & Herr).
  unfold flush, bind. rewrite Hrun. destruct b.
  - unfold rotate. unfold_monad. unfold reliable_writer.
    eexists. split; [reflexivity|]. exact Herr.
  - exists st'. split; [reflexivity|exact Herr].
Qed.

Lemma flush_all_reliable (fields : list (string * Z))
  (buffers : list string) (st : state) :
  fields_nonneg fields ->
  exists st',
    flush_all reliable_writer fields buffers st = (Ok tt, st')
    /\ stderr st' = stderr st.
Proof.
  intros Hn. revert st. induction buffers as [|b rest IH]; intros st;
    cbn [flush_all].
  - exists st. split; reflexivity.
  - destruct (flush_reliable fields b st Hn) as (st1 & Hf & He).
    destruct (IH st1) as (st2 & Hr & He').
    exists st2. unfold bind. rewrite Hf. split; [exact Hr|congruence].
Qed.

Lemma main_loop_big_statement
  (writer_raises : csv_file -> csv_row -> option exn)
  (fields : list (string * Z)) (n : nat) (st : state) :
  main_loop writer_raises fields [Line (big_statement n)] EmptyString st
  = (Ok (big_statement n), st).
Proof.
  cbn [main_loop]. rewrite strip_big_statement.
  assert (Hins : is_insert (big_statement n) = true).
  { unfold is_insert. now rewrite strip_big_statement. }
  rewrite Hins. reflexivity.
Qed.

(** * The claims *)

(** C1 (the code drops row-groups): a statement with 10001 row-groups,
    on two lines.  [parse_values] returns as soon as the counter reaches
    the threshold, so the run writes 10000 data rows, all in the first
    file, and the last row-group is lost, although the file is rotated (the
    second file holds its header only). *)
Theorem rows_after_rotation_are_dropped :
  let n := Z.to_nat 10001 in
  let st := snd (main reliable_writer REQUIRED_FIELDS
                   [Line "INSERT INTO t VALUES"; Line (groups n ++ ";")]) in
  Z.of_nat
    (List.length (row_groups ("INSERT INTO t VALUES " ++ groups n ++ ";")))
  = 10001
  /\ data_rows_written st = 10000
  /\ map (fun f => Z.of_nat (List.length f)) (files st) = [10001; 1]
  /\ file_count st = 1.
Proof.
  intros n st. subst st n.
  replace (Z.to_nat 10001) with (S (Z.to_nat 10000)) by lia.
  fold (big_statement (Z.to_nat 10000)).
  destruct (main_big_statement_two_lines (Z.to_nat 10000))
    as (st & -> & Hcl & Hcur & _ & Hfc); [unfold LINES_PER_FILE; lia|].
  rewrite row_groups_big_statement, repeat_length.
  unfold data_rows_written, files. cbn [snd]. rewrite Hcl, Hcur.
  cbn [app fold_right map List.length Nat.pred]. rewrite repeat_length.
  unfold header, REQUIRED_FIELDS, LINES_PER_FILE. cbn [List.length map].
  repeat split; try lia.
Qed.

(** C2 (the code loses bare numbers): on the example statement of the
    specification, with the schema X:0, Y:2, Z:3, the row written is
    ["", "b", ""] and not ["1", "b", ""]: the token pattern has a
    capturing group inside the quotes only, so a digit sequence is
    returned as the empty string. *)
Theorem example_row_loses_number :
  files (snd (main reliable_writer example_fields
                [Line "INSERT INTO t VALUES (1,'a','b',NULL,'c');"]))
  = [[["X"; "Y"; "Z"]; [""; "b"; ""]]]
  /\ tokens "1,'a','b',NULL,'c'"
     = [Digits "1"; Quoted "a"; Quoted "b"; Null; Quoted "c"]
  /\ re_findall_columns "1,'a','b',NULL,'c'" = [""; "a"; "b"; ""; "c"].
Proof. vm_compute. repeat split; reflexivity. Qed.

(** C3, counterexample: a statement with unbalanced parentheses, alone in
    the input, is written as two rows and nothing is printed on the
    diagnostic stream. *)
Lemma unbalanced_statement_writes_rows :
  let st := snd (main reliable_writer REQUIRED_FIELDS
                   [Line "INSERT INTO t VALUES ((1,'a'),(2,'b';"]) in
  data_rows_written st = 2 /\ stderr st = []
  /\ ~ (data_rows_written st = 0 /\ List.length (stderr st) = 1%nat).
Proof.
  vm_compute. repeat split; try reflexivity. intros [H _]. discriminate H.
Qed.

(** C3, amended: whatever the text of a statement (unbalanced parentheses
    included), when no write fails, processing it returns normally, writes
    at least one row and at most one row per row-group to the open file,
    and prints nothing on the diagnostic stream; the loop then goes on
    with the rest of the input, from the state the statement left, at both
    places where it flushes a statement; so in a run over lines that each
    start a statement, every statement, whatever the ones before it look
    like, is processed in turn, the last one by the flush at the end of
    the input; and a run over any sequence of lines completes with status
    0 and an empty diagnostic stream. *)
Theorem any_statement_is_written_quietly :
  (forall (statement : string) (st : state),
      exists b st' written,
        process_insert reliable_writer REQUIRED_FIELDS statement st
        = (Ok b, st')
        /\ written <> []
        /\ (List.length written <= List.length (row_groups statement))%nat
        /\ closed st' = closed st
        /\ current st' = current st ++ written
        /\ stderr st' = stderr st)
  /\ (forall lines : list string,
         exists st,
           main reliable_writer REQUIRED_FIELDS (map Line lines) = (0, st)
           /\ stderr st = [])
  /\ (forall (buffer text : string) (rest : list event) (st : state),
         nonempty buffer = true ->
         is_insert text = true ->
         exists st',
           flush reliable_writer REQUIRED_FIELDS buffer st = (Ok tt, st')
           /\ stderr st' = stderr st
           /\ main_loop reliable_writer REQUIRED_FIELDS (Line text :: rest)
                buffer st
              = main_loop reliable_writer REQUIRED_FIELDS rest (strip text)
                  st')
  /\ (forall (buffer text : string) (rest : list event) (st : state),
         nonempty buffer = true ->
         is_insert text = false ->
         endswith_semicolon (strip text) = true ->
         exists st',
           flush reliable_writer REQUIRED_FIELDS
             (buffer ++ " " ++ strip text)%string st = (Ok tt, st')
           /\ stderr st' = stderr st
           /\ main_loop reliable_writer REQUIRED_FIELDS (Line text :: rest)
                buffer st
              = main_loop reliable_writer REQUIRED_FIELDS rest EmptyString
                  st')
  /\ (forall (lines : list string) (last : string),
         Forall (fun text => is_insert text = true) lines ->
         is_insert last = true ->
         exists st1 b st2,
           (writerow reliable_writer (header REQUIRED_FIELDS) ;;;
            flush_all reliable_writer REQUIRED_FIELDS (map strip lines))
             initial_state = (Ok tt, st1)
           /\ process_insert reliable_writer REQUIRED_FIELDS (strip last) st1
              = (Ok b, st2)
           /\ main reliable_writer REQUIRED_FIELDS
                (map Line (lines ++ [last])) = (0, st2)
           /\ stderr st2 = []).
Proof.
  split; [|split; [|split; [|split]]].
  - intros statement st.
    destruct (process_insert_reliable_appends _ REQUIRED_FIELDS_nonneg
                statement st)
      as (b & st' & written & H1 & H2 & H3 & H4 & H5 & _ & H6).
    exists b, st', written. auto 10.
  - intros lines. apply main_lines_only, REQUIRED_FIELDS_nonneg.
  - intros buffer text rest st Hb Ht.
    destruct (flush_reliable REQUIRED_FIELDS buffer st REQUIRED_FIELDS_nonneg)
      as (st' & Hf & He).
    exists st'. split; [exact Hf|]. split; [exact He|].
    cbn [main_loop]. rewrite is_insert_strip, Ht, Hb.
    unfold bind. now rewrite Hf.
  - intros buffer text rest st Hb Ht Hend.
    destruct (flush_reliable REQUIRED_FIELDS
                (buffer ++ " " ++ strip text)%string st
                REQUIRED_FIELDS_nonneg)
      as (st' & Hf & He).
    exists st'. split; [exact Hf|]. split; [exact He|].
    cbn [main_loop]. rewrite is_insert_strip, Ht, Hb, Hend.
    unfold bind. now rewrite Hf.
  - intros lines last Hlines Hlast.
    destruct (flush_all_reliable REQUIRED_FIELDS (map strip lines)
                (mkState [] [header REQUIRED_FIELDS] 0 0 [] [])
                REQUIRED_FIELDS_nonneg)
      as (st1 & Hall & He1).
    destruct (process_insert_reliable_appends _ REQUIRED_FIELDS_nonneg
                (strip last) st1)
      as (b & st2 & written & Hrun & _ & _ & _ & _ & _ & He2).
    exists st1, b, st2.
    assert (Hhead : writerow reliable_writer (header REQUIRED_FIELDS)
                      initial_state
                    = (Ok tt, mkState [] [header REQUIRED_FIELDS] 0 0 [] []))
      by reflexivity.
    split; [unfold bind at 1; rewrite Hhead; exact Hall|].
    split; [exact Hrun|].
    split; [|cbn [stderr] in He1; congruence].
    unfold main, main_body. unfold bind at 1. rewrite Hhead.
    unfold bind at 1.
    rewrite (main_loop_inserts _ _ _ _ _ _ Hlines Hlast).
    cbn [nonempty]. unfold bind at 1, ret at 1. unfold bind at 1.
    rewrite Hall. unfold ret at 1.
    rewrite (is_insert_nonempty _ Hlast). unfold bind. rewrite Hrun.
    reflexivity.
Qed.

(** A statement with unbalanced parentheses followed by a well-formed one:
    both are processed, and the rows of the second follow the rows of the
    first. *)
Lemma any_statement_is_written_quietly_witness :
  Forall (fun text => is_insert text = true)
    ["INSERT INTO t VALUES ((1,'a'),(2,'b';"]
  /\ is_insert "INSERT INTO t VALUES (3,'c');" = true
  /\ exists st2,
       main reliable_writer REQUIRED_FIELDS
         (map Line (["INSERT INTO t VALUES ((1,'a'),(2,'b';"]
                    ++ ["INSERT INTO t VALUES (3,'c');"])) = (0, st2)
       /\ stderr st2 = []
       /\ files st2
          = [[header REQUIRED_FIELDS;
              [""; ""; ""; ""; ""; "a"; ""; ""; ""; ""; ""; ""; ""; ""];
              [""; ""; ""; ""; ""; "b"; ""; ""; ""; ""; ""; ""; ""; ""];
              [""; ""; ""; ""; ""; "c"; ""; ""; ""; ""; ""; ""; ""; ""]]].
Proof.
  assert (H : Forall (fun text => is_insert text = true)
                ["INSERT INTO t VALUES ((1,'a'),(2,'b';"])
    by (repeat constructor).
  split; [exact H|]. split; [reflexivity|].
  destruct (proj2 (proj2 (proj2 (proj2 any_statement_is_written_quietly)))
              ["INSERT INTO t VALUES ((1,'a'),(2,'b';"]
              "INSERT INTO t VALUES (3,'c');" H eq_refl)
    as (st1 & b & st2 & _ & _ & Hmain & Herr).
  exists st2. split; [exact Hmain|]. split; [exact Herr|].
  change st2 with (snd (0, st2)). rewrite <- Hmain. reflexivity.
Defined.

(** C4 (the code does not flush a one-line statement): a complete
    statement on one line stays in the buffer, the line after it is
    appended, and the quoted text of that line ends up in the row (here
    in the LOGIN column, index 2).  The same statement alone in the input
    gives an empty LOGIN. *)
Theorem one_line_statement_not_flushed :
  let names := header REQUIRED_FIELDS in
  files (snd (main reliable_writer REQUIRED_FIELDS
                [Line "INSERT INTO t VALUES (1,'ts');";
                 Line "SET NAMES 'utf8';"]))
  = [[names;
      ["utf8"; ""; ""; ""; ""; "ts"; ""; ""; ""; ""; ""; ""; ""; ""]]]
  /\ files (snd (main reliable_writer REQUIRED_FIELDS
                   [Line "INSERT INTO t VALUES (1,'ts');"]))
     = [[names; [""; ""; ""; ""; ""; "ts"; ""; ""; ""; ""; ""; ""; ""; ""]]].
Proof. vm_compute. split; reflexivity. Qed.

(** C5, counterexample: a one-line statement with exactly 10000
    row-groups, alone in the input, is processed by the flush at the end
    of the input; the 10000 rows are written and the counter is reset,
    but the returned signal is not looked at: there is no rotation. *)
Lemma no_rotation_at_end_of_input :
  let st := snd (main reliable_writer REQUIRED_FIELDS
                   [Line ("INSERT INTO t VALUES "
                          ++ groups (Z.to_nat 10000) ++ ";")]) in
  data_rows_written st = LINES_PER_FILE
  /\ line_counter st = 0
  /\ closed st = []
  /\ file_count st = 0
  /\ file_count st <> 1.
Proof.
  intros st. subst st.
  replace (Z.to_nat 10000) with (S (Z.to_nat 9999)) by lia.
  fold (big_statement (Z.to_nat 9999)).
  destruct (main_big_statement_one_line (Z.to_nat 9999))
    as (st & -> & Hcl & Hcur & Hctr & Hfc); [unfold LINES_PER_FILE; lia|].
  unfold data_rows_written, files. cbn [snd]. rewrite Hcl, Hcur, Hctr, Hfc.
  cbn [app fold_right List.length Nat.pred]. rewrite repeat_length.
  unfold LINES_PER_FILE. repeat split; try lia.
Qed.

(** C5, amended: the threshold is 10000; in every run, whatever the input
    and the writer, the row counter is in [0, threshold) at the start of
    every row-group; a row-group that is written gives the signal to
    switch files exactly when its row brings the counter to the threshold,
    and the counter is then zero; every file closed by a rotation holds
    its header and exactly threshold rows, the file number is the number
    of rotations, and the open file never holds more than threshold
    rows; a flush of the line loop answers the signal by exactly one
    rotation, which closes the open file and adds one to the file number;
    the flush at the end of the input is not followed by a rotation,
    whatever it returns: the run ends in the state the last statement
    left, with the same closed files and the same file number. *)
Theorem counter_and_rotation :
  LINES_PER_FILE = 10000
  /\ (forall (writer_raises : csv_file -> csv_row -> option exn)
        (input : list event),
         let st := snd (main writer_raises REQUIRED_FIELDS input) in
         Forall counter_in_range (row_start_log st)
         /\ counter_in_range (line_counter st)
         /\ Forall (fun f => Z.of_nat (List.length f) = 1 + LINES_PER_FILE)
              (closed st)
         /\ file_count st = Z.of_nat (List.length (closed st))
         /\ Z.of_nat (List.length (current st)) <= 1 + LINES_PER_FILE)
  /\ (forall (writer_raises : csv_file -> csv_row -> option exn)
        (row : string) (st : state),
         counter_in_range (line_counter st) ->
         match parse_row writer_raises REQUIRED_FIELDS row st with
         | (Ok switch, st') =>
             (switch = true <-> line_counter st + 1 = LINES_PER_FILE)
             /\ line_counter st' =
                  (if switch then 0 else line_counter st + 1)
             /\ Z.of_nat (List.length (current st'))
                = Z.of_nat (List.length (current st)) + 1
         | (Raise _, st') =>
             line_counter st' = line_counter st /\ current st' = current st
         end)
  /\ (forall (writer_raises : csv_file -> csv_row -> option exn)
        (buffer : string) (st : state),
         match process_insert writer_raises REQUIRED_FIELDS buffer st with
         | (Ok true, st') =>
             let r := rotate writer_raises REQUIRED_FIELDS st' in
             flush writer_raises REQUIRED_FIELDS buffer st = r
             /\ closed (snd r) = closed st' ++ [current st']
             /\ file_count (snd r) = file_count st' + 1
         | (Ok false, st') =>
             flush writer_raises REQUIRED_FIELDS buffer st = (Ok tt, st')
         | (Raise e, st') =>
             flush writer_raises REQUIRED_FIELDS buffer st = (Raise e, st')
         end)
  /\ (forall (writer_raises : csv_file -> csv_row -> option exn)
        (input : list event) (buffer : string) (st1 : state),
         (writerow writer_raises (header REQUIRED_FIELDS) ;;;
          main_loop writer_raises REQUIRED_FIELDS input EmptyString)
           initial_state = (Ok buffer, st1) ->
         nonempty buffer = true ->
         match process_insert writer_raises REQUIRED_FIELDS buffer st1 with
         | (Ok switch, st2) =>
             main writer_raises REQUIRED_FIELDS input = (0, st2)
             /\ closed st2 = closed st1
             /\ file_count st2 = file_count st1
         | (Raise e, st2) =>
             e = KeyboardInterrupt
             /\ main writer_raises REQUIRED_FIELDS input = (0, st2)
         end).
Proof.
  split; [reflexivity|]. split; [|split; [|split]].
  - intros writer_raises input st.
    pose proof (main_settled writer_raises REQUIRED_FIELDS input) as H.
    fold st in H. unfold counter_in_range in *.
    assert (Hbase : forall s, base REQUIRED_FIELDS s ->
              Forall counter_in_range (row_start_log s)
              /\ counter_in_range (line_counter s)
              /\ Forall (fun f => Z.of_nat (List.length f)
                                  = 1 + LINES_PER_FILE) (closed s)
              /\ file_count s = Z.of_nat (List.length (closed s))).
    { intros s (Hcl & Hc & Hfc & Hlog). repeat split; auto; try apply Hc.
      eapply Forall_impl; [|exact Hcl]. intros f [_ Hf]. exact Hf. }
    destruct H as [(Hb & _ & Hlen)|[(Hb & [_ Hlen] & _)|(Hb & Hnil & _)]];
      destruct (Hbase _ Hb) as (H1 & H2 & H3 & H4);
      repeat split; auto; try apply H2; unfold counter_in_range in H2;
      try lia.
    rewrite Hnil. cbn [List.length]. lia.
  - intros writer_raises row st Hc. rewrite parse_row_unfold. cbv zeta.
    unfold counter_in_range in Hc.
    destruct (result_row _ _) as [r|e]; [|split; reflexivity].
    destruct (writer_raises _ _) as [e|]; [split; reflexivity|].
    destruct (Z.leb_spec LINES_PER_FILE (line_counter st + 1));
      fields_of_state; rewrite length_app; cbn [List.length];
      repeat split; try lia; try discriminate; auto.
  - intros writer_raises buffer st. unfold flush, bind.
    destruct (process_insert writer_raises REQUIRED_FIELDS buffer st)
      as [[[|]|e] st']; try reflexivity.
    cbv zeta. split; [reflexivity|].
    unfold rotate. unfold_monad. fields_of_state.
    destruct (writer_raises [] (header REQUIRED_FIELDS));
      split; reflexivity.
  - intros writer_raises input buffer st1 Hloop Hb.
    unfold main, main_body. unfold bind in Hloop |- *.
    destruct (writerow writer_raises (header REQUIRED_FIELDS) initial_state)
      as [[[]|e0] s0]; [|discriminate Hloop].
    rewrite Hloop, Hb.
    unfold process_insert, parse_values.
    destruct (parse_rows_appends writer_raises REQUIRED_FIELDS
                (re_split_rows (strip_chars is_paren (get_values buffer)))
                st1) as (written & H).
    destruct (parse_rows writer_raises REQUIRED_FIELDS _ st1)
      as [[b|[|msg]] st2];
      destruct H as (Hcl & _ & Hfc & _); unfold_monad; fields_of_state;
      repeat split; auto.
Qed.

(** Runs on which [counter_and_rotation] can be seen: three row-groups
    in two statements; a row-group written when the file holds
    [LINES_PER_FILE - 1] rows; and a statement of [LINES_PER_FILE]
    row-groups that the flush at the end of the input processes. *)
Lemma counter_and_rotation_witness :
  let st := snd (main reliable_writer REQUIRED_FIELDS
                   [Line "INSERT INTO t VALUES (1,'a'),(2,'b');";
                    Line "INSERT INTO t VALUES (3,'c');"]) in
  let almost_full :=
    mkState [] [header REQUIRED_FIELDS] (LINES_PER_FILE - 1) 0 [] [] in
  let big := big_statement (Z.to_nat 9999) in
  row_start_log st = [0; 1; 2]
  /\ Forall counter_in_range (row_start_log st)
  /\ counter_in_range (line_counter initial_state)
  /\ match parse_row reliable_writer REQUIRED_FIELDS "1,'a'" initial_state with
     | (Ok switch, st') =>
         (switch = true <-> line_counter initial_state + 1 = LINES_PER_FILE)
         /\ line_counter st' =
              (if switch then 0 else line_counter initial_state + 1)
         /\ Z.of_nat (List.length (current st'))
            = Z.of_nat (List.length (current initial_state)) + 1
     | (Raise _, st') =>
         line_counter st' = line_counter initial_state
         /\ current st' = current initial_state
     end
  /\ counter_in_range (line_counter almost_full)
  /\ fst (parse_row reliable_writer REQUIRED_FIELDS "1,'a'" almost_full)
     = Ok true
  /\ match parse_row reliable_writer REQUIRED_FIELDS "1,'a'" almost_full with
     | (Ok switch, st') =>
         (switch = true <-> line_counter almost_full + 1 = LINES_PER_FILE)
         /\ line_counter st' =
              (if switch then 0 else line_counter almost_full + 1)
         /\ Z.of_nat (List.length (current st'))
            = Z.of_nat (List.length (current almost_full)) + 1
     | (Raise _, st') =>
         line_counter st' = line_counter almost_full
         /\ current st' = current almost_full
     end
  /\ (writerow reliable_writer (header REQUIRED_FIELDS) ;;;
      main_loop reliable_writer REQUIRED_FIELDS [Line big] EmptyString)
       initial_state = (Ok big, started)
  /\ nonempty big = true
  /\ exists st2,
       process_insert reliable_writer REQUIRED_FIELDS big started
       = (Ok true, st2)
       /\ main reliable_writer REQUIRED_FIELDS [Line big] = (0, st2)
       /\ closed st2 = closed started
       /\ file_count st2 = file_count started.
Proof.
  intros st almost_full big.
  assert (Hc : counter_in_range (line_counter initial_state))
    by (vm_compute; split; [discriminate|reflexivity]).
  assert (Hc' : counter_in_range (line_counter almost_full))
    by (vm_compute; split; [discriminate|reflexivity]).
  assert (Hloop : (writerow reliable_writer (header REQUIRED_FIELDS) ;;;
                   main_loop reliable_writer REQUIRED_FIELDS [Line big]
                     EmptyString) initial_state = (Ok big, started)).
  { unfold bind. unfold writerow, reliable_writer.
    cbn [current initial_state closed line_counter file_count stderr
         row_start_log app].
    fold started. apply main_loop_big_statement. }
  assert (Hb : nonempty big = true) by reflexivity.
  split; [reflexivity|]. split; [|split; [exact Hc|split]].
  - apply (proj1 (proj2 counter_and_rotation) reliable_writer).
  - apply (proj1 (proj2 (proj2 counter_and_rotation)) reliable_writer _ _ Hc).
  - split; [exact Hc'|]. split; [reflexivity|]. split;
      [|split; [exact Hloop|split; [exact Hb|]]].
    + apply (proj1 (proj2 (proj2 counter_and_rotation)) reliable_writer
               _ _ Hc').
    + pose proof (proj2 (proj2 (proj2 (proj2 counter_and_rotation)))
                    reliable_writer [Line big] big started Hloop Hb) as H.
      destruct (process_insert_big_statement (Z.to_nat 9999) started
                  started_in_range) as (st2 & Hrun & _).
      fold big in Hrun.
      replace (LINES_PER_FILE - line_counter started
               <=? Z.of_nat (S (Z.to_nat 9999))) with true in Hrun
        by (symmetry; apply Z.leb_le;
            change (line_counter started) with 0;
            unfold LINES_PER_FILE; lia).
      rewrite Hrun in H. exists st2. split; [exact Hrun|exact H].
Defined.

(** C6: when writing the header to a file just opened does not fail, every
    file of every run, the first one and the ones opened by rotation,
    whatever the input and whatever else the writer does, is the row of
    the fourteen field names in the order of the schema, followed only by
    rows of row-groups; and that header is the only row of the file that
    is not the row of a row-group: there is one file more than the file
    number; a file closed by rotation holds one row and the threshold, the
    open file one row and what the counter counted (the threshold when the
    last statement filled it); and the rows of all the files number at
    most one for each file and one for each row-group entered, and exactly
    that many when no write fails. *)
Theorem every_file_starts_with_header
  (writer_raises : csv_file -> csv_row -> option exn) (input : list event) :
  writer_raises [] (header REQUIRED_FIELDS) = None ->
  let st := snd (main writer_raises REQUIRED_FIELDS input) in
  Forall
    (fun f =>
       exists rows,
         f = [ "LOGIN"; "NAME"; "LAST_NAME"; "EMAIL"; "PERSONAL_BIRTHDATE";
               "TIMESTAMP_X"; "PERSONAL_PHONE"; "PERSONAL_MOBILE";
               "PERSONAL_MAILBOX"; "PERSONAL_CITY"; "PERSONAL_STATE";
               "WORK_CITY"; "PASSWORD"; "CHECKWORD" ] :: rows
         /\ Forall (data_row REQUIRED_FIELDS) rows)
    (files st)
  /\ Z.of_nat (List.length (files st)) = file_count st + 1
  /\ Forall (fun f => Z.of_nat (List.length f) = 1 + LINES_PER_FILE)
       (closed st)
  /\ (Z.of_nat (List.length (current st)) = 1 + line_counter st
      \/ (Z.of_nat (List.length (current st)) = 1 + LINES_PER_FILE
          /\ line_counter st = 0))
  /\ total_rows st
     <= Z.of_nat (List.length (files st))
        + Z.of_nat (List.length (row_start_log st))
  /\ ((forall f r, writer_raises f r = None) ->
      total_rows st
      = Z.of_nat (List.length (files st))
        + Z.of_nat (List.length (row_start_log st))).
Proof.
  intros Hheader st.
  pose proof (main_settled writer_raises REQUIRED_FIELDS input) as H.
  pose proof (main_kept writer_raises REQUIRED_FIELDS input) as [Hle Heq].
  fold st in H, Hle, Heq.
  assert (Hbase : base REQUIRED_FIELDS st
                  /\ (live REQUIRED_FIELDS st \/ ripe REQUIRED_FIELDS st)).
  { destruct H as [Hl|[Hr|(_ & _ & Hw)]]; [| |now destruct Hw].
    - split; [apply Hl|now left].
    - split; [apply Hr|now right]. }
  destruct Hbase as [(Hcl & _ & Hfc & _) Hcur].
  assert (Hfiles : Z.of_nat (List.length (files st)) = file_count st + 1).
  { unfold files. rewrite length_app. cbn [List.length]. lia. }
  split; [|split; [exact Hfiles|split; [|split; [|split]]]].
  - change (Forall (headed_file REQUIRED_FIELDS) (files st)).
    unfold files. apply Forall_app. split.
    + eapply Forall_impl; [|exact Hcl]. intros f [Hf _]. exact Hf.
    + constructor; [|constructor].
      destruct Hcur as [(_ & Hf & _)|(_ & [Hf _] & _)]; exact Hf.
  - eapply Forall_impl; [|exact Hcl]. intros f [_ Hf]. exact Hf.
  - destruct Hcur as [(_ & _ & Hlen)|(_ & [_ Hlen] & Hz)];
      [now left|right; now split].
  - unfold surplus in Hle. lia.
  - intros Hw. unfold surplus in Heq.
    assert (Hd : dependable writer_raises REQUIRED_FIELDS)
      by (split; [exact Hw|exact REQUIRED_FIELDS_nonneg]).
    specialize (Heq Hd). lia.
Qed.

(** A run with three row-groups in two statements: one file, four rows. *)
Lemma every_file_starts_with_header_witness :
  let st := snd (main reliable_writer REQUIRED_FIELDS
                   [Line "INSERT INTO t VALUES (1,'a'),(2,'b');";
                    Line "INSERT INTO t VALUES (3,'c');"]) in
  reliable_writer [] (header REQUIRED_FIELDS) = None
  /\ (forall f r, reliable_writer f r = None)
  /\ Forall
       (fun f =>
          exists rows,
            f = [ "LOGIN"; "NAME"; "LAST_NAME"; "EMAIL"; "PERSONAL_BIRTHDATE";
                  "TIMESTAMP_X"; "PERSONAL_PHONE"; "PERSONAL_MOBILE";
                  "PERSONAL_MAILBOX"; "PERSONAL_CITY"; "PERSONAL_STATE";
                  "WORK_CITY"; "PASSWORD"; "CHECKWORD" ] :: rows
            /\ Forall (data_row REQUIRED_FIELDS) rows)
       (files st)
  /\ total_rows st
     = Z.of_nat (List.length (files st))
       + Z.of_nat (List.length (row_start_log st))
  /\ total_rows st = 4
  /\ List.length (files st) = 1%nat
  /\ List.length (row_start_log st) = 3%nat.
Proof.
  intros st.
  assert (Hh : reliable_writer [] (header REQUIRED_FIELDS) = None)
    by reflexivity.
  assert (Hw : forall f r, reliable_writer f r = None)
    by (intros f r; reflexivity).
  pose proof (every_file_starts_with_header reliable_writer
                [Line "INSERT INTO t VALUES (1,'a'),(2,'b');";
                 Line "INSERT INTO t VALUES (3,'c');"] Hh)
    as (Hfiles & _ & _ & _ & _ & Heq).
  split; [exact Hh|]. split; [exact Hw|]. split; [exact Hfiles|].
  split; [exact (Heq Hw)|]. repeat split; reflexivity.
Defined.

(** C7: for every row-group and every configured field, when the index of
    the field is at least the number of tokens of the row-group, or the
    token at that index is the null marker, the row is built without error
    and its value at the position of the field is the empty string. *)
Theorem missing_or_null_is_empty (row : string) (k : nat) (name : string)
  (index : Z) :
  nth_error REQUIRED_FIELDS k = Some (name, index) ->
  Z.of_nat (List.length (tokens row)) <= index
  \/ nth_error (tokens row) (Z.to_nat index) = Some Null ->
  exists r,
    result_row REQUIRED_FIELDS (re_findall_columns row) = Ok r
    /\ nth_error r k = Some EmptyString.
Proof.
  intros Hk H. exists (row_of REQUIRED_FIELDS (re_findall_columns row)).
  split; [apply result_row_nonneg, REQUIRED_FIELDS_nonneg|].
  rewrite (nth_error_row_of _ _ _ _ _ Hk). f_equal.
  apply cell_value_missing_or_null; [|exact H].
  pose proof REQUIRED_FIELDS_nonneg as Hn. unfold fields_nonneg in Hn.
  rewrite Forall_forall in Hn.
  apply (Hn (name, index)). eapply nth_error_In. exact Hk.
Qed.

(** The field TIMESTAMP_X, index 1, on a row-group whose second token is
    the null marker. *)
Lemma missing_or_null_is_empty_witness :
  nth_error REQUIRED_FIELDS 5 = Some ("TIMESTAMP_X", 1)
  /\ nth_error (tokens "7,NULL,'x'") (Z.to_nat 1) = Some Null
  /\ exists r,
       result_row REQUIRED_FIELDS (re_findall_columns "7,NULL,'x'") = Ok r
       /\ nth_error r 5 = Some EmptyString.
Proof.
  split; [reflexivity|]. split; [reflexivity|].
  apply (missing_or_null_is_empty "7,NULL,'x'" 5 "TIMESTAMP_X" 1).
  - reflexivity.
  - right. reflexivity.
Defined.

(** C8: the exit status is 0 when the body of [main] completes and when a
    [KeyboardInterrupt] leaves it, and 1, after the message
    "Unhandled exception: ..." has been printed on the error stream, when
    another exception leaves it.  When no write fails: a run over lines
    only exits with 0; a run interrupted from the keyboard after any
    number of lines exits with 0; a run whose input raises another
    exception exits with 1 and that message is the only one printed. *)
Theorem exit_status :
  (forall (writer_raises : csv_file -> csv_row -> option exn)
     (input : list event),
      match main_body writer_raises REQUIRED_FIELDS input initial_state with
      | (Ok _, st) | (Raise KeyboardInterrupt, st) =>
          main writer_raises REQUIRED_FIELDS input = (0, st)
      | (Raise (Exception msg), st) =>
          exists st',
            main writer_raises REQUIRED_FIELDS input = (1, st')
            /\ stderr st' =
                 stderr st ++ [("Unhandled exception: " ++ msg)%string]
            /\ files st' = files st
      end)
  /\ (forall lines : list string,
         fst (main reliable_writer REQUIRED_FIELDS (map Line lines)) = 0)
  /\ (forall (lines : list string) (rest : list event),
         fst (main reliable_writer REQUIRED_FIELDS
                (map Line lines ++ Fault KeyboardInterrupt :: rest)) = 0)
  /\ (forall (lines : list string) (msg : string) (rest : list event),
         let r := main reliable_writer REQUIRED_FIELDS
                    (map Line lines ++ Fault (Exception msg) :: rest) in
         fst r = 1
         /\ stderr (snd r) = [("Unhandled exception: " ++ msg)%string]).
Proof.
  split; [|split; [|split]].
  - intros writer_raises input. unfold main.
    destruct (main_body _ _ _ initial_state) as [[a|[|msg]] st];
      try reflexivity.
    eexists. split; [reflexivity|]. split; reflexivity.
  - intros lines.
    destruct (main_lines_only _ REQUIRED_FIELDS_nonneg lines) as (st & -> & _).
    reflexivity.
  - intros lines rest. unfold main.
    destruct (main_body_fault _ REQUIRED_FIELDS_nonneg lines
                KeyboardInterrupt rest) as (st & -> & _).
    reflexivity.
  - intros lines msg rest r. subst r. unfold main.
    destruct (main_body_fault _ REQUIRED_FIELDS_nonneg lines
                (Exception msg) rest) as (st & -> & Herr).
    unfold_monad. cbn [fst snd stderr]. rewrite Herr. split; reflexivity.
Qed.

(** C9: a statement that does not contain " VALUES ", when the write does
    not fail, is processed without error: exactly one row is appended to
    the open file, it has one value per configured field, and every value
    is the empty string; nothing is printed. *)
Theorem statement_without_values_writes_blank_row (statement : string)
  (st : state) :
  contains_substring " VALUES " statement = false ->
  exists switch st' row,
    process_insert reliable_writer REQUIRED_FIELDS statement st
    = (Ok switch, st')
    /\ current st' = current st ++ [row]
    /\ List.length row = List.length REQUIRED_FIELDS
    /\ Forall (fun value => value = EmptyString) row
    /\ closed st' = closed st
    /\ stderr st' = stderr st.
Proof.
  intros H. unfold process_insert, parse_values, get_values.
  rewrite (partition_tail_absent _ _ H).
  change (re_split_rows
            (strip_chars is_paren (rstrip is_semicolon (strip EmptyString))))
    with [EmptyString].
  cbn [parse_rows]. unfold bind at 1.
  rewrite (parse_row_reliable _ REQUIRED_FIELDS_nonneg). cbv zeta.
  change (output_row REQUIRED_FIELDS EmptyString)
    with (repeat EmptyString 14).
  destruct (LINES_PER_FILE <=? line_counter st + 1); unfold ret;
    eexists _, _, (repeat EmptyString 14); fields_of_state;
    (split; [reflexivity|]); repeat split; auto;
    apply Forall_forall; intros v Hv; apply repeat_spec in Hv; exact Hv.
Qed.

Lemma statement_without_values_writes_blank_row_witness :
  contains_substring " VALUES " "INSERT INTO t SELECT 1, 'a' FROM u;" = false
  /\ exists switch st' row,
       process_insert reliable_writer REQUIRED_FIELDS
         "INSERT INTO t SELECT 1, 'a' FROM u;" initial_state
       = (Ok switch, st')
       /\ current st' = current initial_state ++ [row]
       /\ List.length row = List.length REQUIRED_FIELDS
       /\ Forall (fun value => value = EmptyString) row
       /\ closed st' = closed initial_state
       /\ stderr st' = stderr initial_state.
Proof.
  split; [reflexivity|].
  apply (statement_without_values_writes_blank_row
           "INSERT INTO t SELECT 1, 'a' FROM u;" initial_state).
  reflexivity.
Defined.

(** C10: for every statement text, every row-group of the statement is
    mapped to a row without any exception, and processing the statement
    prints a diagnostic only when the writer raised an exception on some
    row (the message is then that exception's); apart from that it
    returns normally with the diagnostic stream unchanged, or lets
    through a [KeyboardInterrupt] raised by the writer. *)
Theorem extraction_never_raises :
  (forall statement : string,
      Forall
        (fun row =>
           exists r, result_row REQUIRED_FIELDS (re_findall_columns row) = Ok r)
        (row_groups statement))
  /\ (forall (writer_raises : csv_file -> csv_row -> option exn)
        (statement : string) (st : state),
         match process_insert writer_raises REQUIRED_FIELDS statement st with
         | (Ok switch, st') =>
             stderr st' = stderr st
             \/ (switch = false
                 /\ exists f r msg,
                      writer_raises f r = Some (Exception msg)
                      /\ stderr st' =
                           stderr st
                           ++ [("Error processing statement: " ++ msg)%string])
         | (Raise e, st') =>
             e = KeyboardInterrupt
             /\ stderr st' = stderr st
             /\ exists f r, writer_raises f r = Some KeyboardInterrupt
         end).
Proof.
  split.
  - intros statement. apply Forall_forall. intros row _.
    eexists. apply result_row_nonneg, REQUIRED_FIELDS_nonneg.
  - intros writer_raises statement st. unfold process_insert, parse_values.
    pose proof (parse_rows_outcome writer_raises REQUIRED_FIELDS
                  (re_split_rows
                     (strip_chars is_paren (get_values statement))) st
                  REQUIRED_FIELDS_nonneg) as H.
    destruct (parse_rows _ _ _ st) as [[b|[|msg]] st'].
    + now left.
    + destruct H as [H1 H2]. auto.
    + destruct H as [H1 (f & r & Hw)]. unfold_monad. fields_of_state.
      right. split; [reflexivity|]. exists f, r, msg. rewrite H1. auto.
Qed.

(** * Further properties of the code *)

(** X1: a line is taken for the start of a statement exactly when, after
    any run of blanks, it goes on with the text INSERT INTO; testing the
    stripped line, as the loop of [main] does, gives the same answer. *)
Theorem is_insert_recognises (line : string) :
  (is_insert line = true <->
   exists blanks rest,
     all_chars is_space blanks = true
     /\ line = (blanks ++ "INSERT INTO" ++ rest)%string)
  /\ is_insert (strip line) = is_insert line.
Proof. split; [apply is_insert_iff_aux|apply is_insert_strip]. Qed.

(** X2: the values portion of a statement never ends with a semicolon,
    whatever the statement. *)
Theorem values_never_end_with_semicolon (statement : string) :
  endswith_semicolon (get_values statement) = false.
Proof. unfold get_values. apply rstrip_semicolon_end. Qed.

(** X3: the values portion is what follows the first occurrence of
    " VALUES ", stripped of blanks and then of trailing semicolons; a later
    occurrence of the keyword stays inside it. *)
Theorem values_follow_first_keyword (before after : string) :
  contains_substring " VALUES " (before ++ " VALUES") = false ->
  get_values (before ++ " VALUES " ++ after)
  = rstrip is_semicolon (strip after).
Proof.
  intros H. unfold get_values. now rewrite partition_tail_first.
Qed.

Lemma values_follow_first_keyword_witness :
  contains_substring " VALUES " ("INSERT INTO t" ++ " VALUES") = false
  /\ get_values ("INSERT INTO t" ++ " VALUES " ++ "(1) VALUES (2);; ")
     = "(1) VALUES (2)".
Proof.
  split; [reflexivity|].
  rewrite (values_follow_first_keyword "INSERT INTO t" "(1) VALUES (2);; ");
    reflexivity.
Defined.

(** X4: when the token at the index of a configured field is a quoted
    string, the value written for the field is the text between the
    quotes, except that the quoted text NULL is written as the empty
    string. *)
Theorem quoted_value_is_copied (row : string) (k : nat) (name : string)
  (index : Z) (q : string) :
  nth_error REQUIRED_FIELDS k = Some (name, index) ->
  nth_error (tokens row) (Z.to_nat index) = Some (Quoted q) ->
  exists r,
    result_row REQUIRED_FIELDS (re_findall_columns row) = Ok r
    /\ nth_error r k = Some (if String.eqb q "NULL" then EmptyString else q).
Proof.
  intros Hk Hq. exists (row_of REQUIRED_FIELDS (re_findall_columns row)).
  split; [apply result_row_nonneg, REQUIRED_FIELDS_nonneg|].
  rewrite (nth_error_row_of _ _ _ _ _ Hk). f_equal.
  apply cell_value_quoted; [|exact Hq].
  pose proof REQUIRED_FIELDS_nonneg as Hn. unfold fields_nonneg in Hn.
  rewrite Forall_forall in Hn.
  apply (Hn (name, index)). eapply nth_error_In. exact Hk.
Qed.

Lemma quoted_value_is_copied_witness :
  nth_error REQUIRED_FIELDS 5 = Some ("TIMESTAMP_X", 1)
  /\ nth_error (tokens "7,'2020-01-01','NULL'") (Z.to_nat 1)
     = Some (Quoted "2020-01-01")
  /\ exists r,
       result_row REQUIRED_FIELDS
         (re_findall_columns "7,'2020-01-01','NULL'") = Ok r
       /\ nth_error r 5 = Some "2020-01-01".
Proof.
  split; [reflexivity|]. split; [reflexivity|].
  apply (quoted_value_is_copied "7,'2020-01-01','NULL'" 5 "TIMESTAMP_X" 1
           "2020-01-01"); reflexivity.
Defined.

(** X5: every value of the row written for a row-group is either the
    empty string or the text of one of the quoted tokens of the row-group:
    a bare number or a bare NULL never reaches the output. *)
Theorem cells_are_empty_or_quoted (row : string) :
  exists r,
    result_row REQUIRED_FIELDS (re_findall_columns row) = Ok r
    /\ Forall (fun v => v = EmptyString \/ In (Quoted v) (tokens row)) r.
Proof.
  exists (output_row REQUIRED_FIELDS row). split.
  - apply result_row_nonneg, REQUIRED_FIELDS_nonneg.
  - apply output_row_cells.
Qed.

(** X6: no value of the row written for a row-group holds a single
    quote: a quoted token ends at the first quote after the one that
    opens it. *)
Theorem no_cell_holds_a_quote (row : string) :
  exists r,
    result_row REQUIRED_FIELDS (re_findall_columns row) = Ok r
    /\ Forall (fun v => has_char "'" v = false) r.
Proof.
  exists (output_row REQUIRED_FIELDS row). split.
  - apply result_row_nonneg, REQUIRED_FIELDS_nonneg.
  - apply output_row_clean.
Qed.

(** X7: in every run, whatever the input and the writer, every row of
    every file, header or data, has exactly fourteen cells. *)
Theorem every_row_has_fourteen_cells
  (writer_raises : csv_file -> csv_row -> option exn) (input : list event) :
  Forall (Forall (fun r : csv_row => List.length r = 14%nat))
    (files (snd (main writer_raises REQUIRED_FIELDS input))).
Proof.
  apply (settled_width writer_raises REQUIRED_FIELDS), main_settled.
Qed.

(** X8: whatever the statement, the writer and the schema, processing a
    statement only appends data rows to the open file, at most one per
    row-group: the closed files and the file number are untouched; the
    counter is zero when the switch signal is given and has otherwise
    grown by the number of rows appended; the diagnostic stream is
    unchanged or has one more line, in which case the result is False;
    the only exception that leaves the function is KeyboardInterrupt. *)
Theorem statement_effects_are_contained
  (writer_raises : csv_file -> csv_row -> option exn)
  (fields : list (string * Z)) (statement : string) (st : state) :
  exists written,
    match process_insert writer_raises fields statement st with
    | (r, st') =>
        closed st' = closed st
        /\ current st' = current st ++ written
        /\ file_count st' = file_count st
        /\ Forall (data_row fields) written
        /\ (List.length written <= List.length (row_groups statement))%nat
        /\ match r with
           | Ok true => line_counter st' = 0 /\ stderr st' = stderr st
           | Ok false =>
               line_counter st' =
                 line_counter st + Z.of_nat (List.length written)
               /\ (stderr st' = stderr st
                   \/ exists msg, stderr st' = stderr st ++ [msg])
           | Raise e =>
               e = KeyboardInterrupt
               /\ line_counter st' =
                    line_counter st + Z.of_nat (List.length written)
               /\ stderr st' = stderr st
           end
    end.
Proof.
  unfold process_insert, parse_values. fold (row_groups statement).
  destruct (parse_rows_appends writer_raises fields (row_groups statement) st)
    as (written & H).
  exists written.
  destruct (parse_rows writer_raises fields (row_groups statement) st)
    as [[[|]|[|msg]] st'];
    destruct H as (Hcl & Hcur & Hfc & Herr & Hdata & Hlen & Hctr);
    unfold_monad; fields_of_state; repeat split; auto.
  right. exists ("Error processing statement: " ++ msg)%string.
  now rewrite Herr.
Qed.

(** X9: when no write fails and the counter is below the threshold,
    processing a statement appends to the open file the rows of its
    row-groups, in the order of the text and each mapped on its own, up to
    the row that fills the file; the result tells whether the file was
    filled, and the counter is then zero. *)
Theorem statement_rows_in_order (statement : string) (st : state) :
  counter_in_range (line_counter st) ->
  let room := LINES_PER_FILE - line_counter st in
  let n := Z.of_nat (List.length (row_groups statement)) in
  exists st',
    process_insert reliable_writer REQUIRED_FIELDS statement st
    = (Ok (room <=? n), st')
    /\ current st' =
         current st
         ++ map (output_row REQUIRED_FIELDS)
              (firstn (Z.to_nat room) (row_groups statement))
    /\ line_counter st' = (if room <=? n then 0 else line_counter st + n)
    /\ closed st' = closed st
    /\ file_count st' = file_count st
    /\ stderr st' = stderr st.
Proof.
  intros Hc room n.
  destruct (parse_rows_reliable REQUIRED_FIELDS REQUIRED_FIELDS_nonneg
              (row_groups statement) st Hc)
    as (st' & Hrun & Hcl & Hcur & Hctr & Hfc & Herr).
  exists st'. unfold process_insert, parse_values.
  fold (row_groups statement). rewrite Hrun.
  repeat split; assumption.
Qed.

Lemma statement_rows_in_order_witness :
  counter_in_range (line_counter initial_state)
  /\ exists st',
       process_insert reliable_writer REQUIRED_FIELDS
         "INSERT INTO t VALUES (1,'a'),(2,'b');" initial_state
       = (Ok false, st')
       /\ current st' =
            [ [""; ""; ""; ""; ""; "a"; ""; ""; ""; ""; ""; ""; ""; ""];
              [""; ""; ""; ""; ""; "b"; ""; ""; ""; ""; ""; ""; ""; ""] ]
       /\ line_counter st' = 2.
Proof.
  assert (Hc : counter_in_range (line_counter initial_state))
    by (split; [discriminate|reflexivity]).
  split; [exact Hc|].
  destruct (statement_rows_in_order "INSERT INTO t VALUES (1,'a'),(2,'b');"
              initial_state Hc)
    as (st' & Hrun & Hcur & Hctr & _).
  exists st'. split; [exact Hrun|]. split; [exact Hcur|exact Hctr].
Defined.

(** X10: lines met while no statement is being accumulated, and that do
    not start one, are ignored; an input without any INSERT INTO line
    gives the same run as the empty input. *)
Theorem lines_before_first_insert_are_ignored
  (writer_raises : csv_file -> csv_row -> option exn)
  (fields : list (string * Z)) (lines : list string) :
  Forall (fun text => is_insert text = false) lines ->
  (forall (rest : list event) (st : state),
      main_loop writer_raises fields (map Line lines ++ rest) EmptyString st
      = main_loop writer_raises fields rest EmptyString st)
  /\ main writer_raises fields (map Line lines) = main writer_raises fields [].
Proof.
  intros H. split.
  - intros rest st. now apply main_loop_skips.
  - unfold main, main_body.
    replace (bind (writerow writer_raises (header fields))
               (fun _ =>
                  buffer <- main_loop writer_raises fields (map Line lines)
                              EmptyString ;;
                  (if nonempty buffer
                   then process_insert writer_raises fields buffer ;;; ret tt
                   else ret tt)) initial_state)
      with (bind (writerow writer_raises (header fields))
              (fun _ =>
                 buffer <- main_loop writer_raises fields [] EmptyString ;;
                 (if nonempty buffer
                  then process_insert writer_raises fields buffer ;;; ret tt
                  else ret tt)) initial_state); [reflexivity|].
    apply bind_same. intros _ st. unfold bind at 1 3.
    rewrite <- (app_nil_r (map Line lines)), (main_loop_skips _ _ _ _ _ H).
    reflexivity.
Qed.

Lemma lines_before_first_insert_are_ignored_witness :
  Forall (fun text => is_insert text = false)
    ["-- MySQL dump"; ""; "CREATE TABLE t (a int);"]
  /\ main reliable_writer REQUIRED_FIELDS
       (map Line ["-- MySQL dump"; ""; "CREATE TABLE t (a int);"])
     = main reliable_writer REQUIRED_FIELDS [].
Proof.
  assert (H : Forall (fun text => is_insert text = false)
                ["-- MySQL dump"; ""; "CREATE TABLE t (a int);"])
    by (repeat constructor).
  split; [exact H|].
  apply (lines_before_first_insert_are_ignored reliable_writer
           REQUIRED_FIELDS _ H).
Defined.

(** X11: when every line of the input starts a statement, each statement
    but the last is flushed alone, in the order of the input, when the
    next one is read; the last one is left in the buffer for the flush at
    the end of the input. *)
Theorem consecutive_statements_are_flushed_in_order
  (writer_raises : csv_file -> csv_row -> option exn)
  (fields : list (string * Z)) (lines : list string) (last : string)
  (st : state) :
  Forall (fun text => is_insert text = true) lines ->
  is_insert last = true ->
  main_loop writer_raises fields (map Line (lines ++ [last])) EmptyString st
  = (flush_all writer_raises fields (map strip lines) ;;;
     ret (strip last)) st.
Proof.
  intros Hlines Hlast.
  rewrite (main_loop_inserts _ _ _ _ _ _ Hlines Hlast). reflexivity.
Qed.

Lemma consecutive_statements_are_flushed_in_order_witness :
  Forall (fun text => is_insert text = true)
    ["INSERT INTO t VALUES (1,'a');"; "  INSERT INTO t VALUES (2,'b');"]
  /\ is_insert "INSERT INTO t VALUES (3,'c');" = true
  /\ main_loop reliable_writer REQUIRED_FIELDS
       (map Line (["INSERT INTO t VALUES (1,'a');";
                   "  INSERT INTO t VALUES (2,'b');"]
                  ++ ["INSERT INTO t VALUES (3,'c');"]))
       EmptyString initial_state
     = (flush_all reliable_writer REQUIRED_FIELDS
          (map strip ["INSERT INTO t VALUES (1,'a');";
                      "  INSERT INTO t VALUES (2,'b');"]) ;;;
        ret (strip "INSERT INTO t VALUES (3,'c');")) initial_state.
Proof.
  assert (H : Forall (fun text => is_insert text = true)
                ["INSERT INTO t VALUES (1,'a');";
                 "  INSERT INTO t VALUES (2,'b');"])
    by (repeat constructor).
  split; [exact H|]. split; [reflexivity|].
  apply (consecutive_statements_are_flushed_in_order reliable_writer
           REQUIRED_FIELDS _ _ initial_state H).
  reflexivity.
Defined.

(** X12: a statement spread over several lines, none of which but the
    last ends with a semicolon once stripped, is flushed once, when its
    last line is read, as the stripped lines joined by single spaces; the
    loop then goes on with an empty buffer.  (The first line is not tested
    for a semicolon.) *)
Theorem multi_line_statement_is_joined
  (writer_raises : csv_file -> csv_row -> option exn)
  (fields : list (string * Z)) (first : string) (lines : list string)
  (last : string) (rest : list event) (st : state) :
  is_insert first = true ->
  Forall (fun text => is_insert text = false
                      /\ endswith_semicolon (strip text) = false) lines ->
  is_insert last = false ->
  endswith_semicolon (strip last) = true ->
  main_loop writer_raises fields
    (map Line (first :: lines ++ [last]) ++ rest) EmptyString st
  = (flush writer_raises fields
       (join_lines (strip first) (lines ++ [last])) ;;;
     main_loop writer_raises fields rest EmptyString) st.
Proof.
  intros Hfirst Hlines Hlast Hend.
  cbn [map app main_loop nonempty]. rewrite is_insert_strip, Hfirst.
  unfold bind at 1, ret at 1.
  now apply main_loop_continues; [apply is_insert_nonempty| | |].
Qed.

Lemma multi_line_statement_is_joined_witness :
  is_insert "INSERT INTO t VALUES" = true
  /\ Forall (fun text => is_insert text = false
                         /\ endswith_semicolon (strip text) = false)
       ["  (1,'a'),"]
  /\ is_insert "  (2,'b');" = false
  /\ endswith_semicolon (strip "  (2,'b');") = true
  /\ join_lines (strip "INSERT INTO t VALUES")
       (["  (1,'a'),"] ++ ["  (2,'b');"])
     = "INSERT INTO t VALUES (1,'a'), (2,'b');"
  /\ main_loop reliable_writer REQUIRED_FIELDS
       (map Line ("INSERT INTO t VALUES" :: ["  (1,'a'),"] ++ ["  (2,'b');"])
        ++ []) EmptyString initial_state
     = (flush reliable_writer REQUIRED_FIELDS
          (join_lines (strip "INSERT INTO t VALUES")
             (["  (1,'a'),"] ++ ["  (2,'b');"])) ;;;
        main_loop reliable_writer REQUIRED_FIELDS [] EmptyString)
         initial_state.
Proof.
  assert (H : Forall (fun text => is_insert text = false
                                  /\ endswith_semicolon (strip text) = false)
                ["  (1,'a'),"])
    by (repeat constructor).
  split; [reflexivity|]. split; [exact H|]. split; [reflexivity|].
  split; [reflexivity|]. split; [reflexivity|].
  apply (multi_line_statement_is_joined reliable_writer REQUIRED_FIELDS
           "INSERT INTO t VALUES" ["  (1,'a'),"] "  (2,'b');" []
           initial_state); [reflexivity|exact H|reflexivity|reflexivity].
Defined.

(** X13: the loop of [main] composes: reading an input in two parts,
    the second part starting with the buffer the first part left, is the
    same as reading it in one go (an exception in the first part ends
    both). *)
Theorem main_loop_composes
  (writer_raises : csv_file -> csv_row -> option exn)
  (fields : list (string * Z)) (first second : list event)
  (buffer : string) (st : state) :
  main_loop writer_raises fields (first ++ second) buffer st
  = (left_over <- main_loop writer_raises fields first buffer ;;
     main_loop writer_raises fields second left_over) st.
Proof.
  revert buffer st.
  induction first as [|[text|e] first IH]; intros buffer st;
    cbn [app main_loop]; [reflexivity| |reflexivity].
  destruct (is_insert (strip text)).
  - rewrite bind_assoc. apply bind_same. intros [] st'. apply IH.
  - destruct (nonempty buffer); [|apply IH].
    destruct (endswith_semicolon (strip text)); [|apply IH].
    rewrite bind_assoc. apply bind_same. intros [] st'. apply IH.
Qed.

(** X14: when reading the input raises, the loop ends with that
    exception in the state reached so far: the statement that was being
    accumulated is not processed, and what follows in the input is not
    read. *)
Theorem read_failure_drops_pending_statement
  (writer_raises : csv_file -> csv_row -> option exn)
  (fields : list (string * Z)) (first : list event) (e : exn)
  (rest : list event) (buffer pending : string) (st st' : state) :
  main_loop writer_raises fields first buffer st = (Ok pending, st') ->
  main_loop writer_raises fields (first ++ Fault e :: rest) buffer st
  = (Raise e, st').
Proof.
  intros H. rewrite main_loop_app. unfold bind. now rewrite H.
Qed.

Lemma read_failure_drops_pending_statement_witness :
  main_loop reliable_writer REQUIRED_FIELDS
    [Line "INSERT INTO t VALUES (1,'a');"] EmptyString initial_state
  = (Ok "INSERT INTO t VALUES (1,'a');", initial_state)
  /\ main_loop reliable_writer REQUIRED_FIELDS
       ([Line "INSERT INTO t VALUES (1,'a');"]
        ++ Fault KeyboardInterrupt :: [Line "INSERT INTO t VALUES (2,'b');"])
       EmptyString initial_state
     = (Raise KeyboardInterrupt, initial_state).
Proof.
  split; [reflexivity|].
  apply (read_failure_drops_pending_statement reliable_writer
           REQUIRED_FIELDS [Line "INSERT INTO t VALUES (1,'a');"]
           KeyboardInterrupt [Line "INSERT INTO t VALUES (2,'b');"]
           EmptyString "INSERT INTO t VALUES (1,'a');").
  reflexivity.
Defined.

(** X15: the text is cut at the first separator: when the text before a
    close-parenthesis, comma, blanks and open-parenthesis holds no
    close-parenthesis followed by a comma, that text is the first
    row-group and the rest is split on its own, whatever the blanks
    (a line break of the dump among them). *)
Theorem row_groups_cut_at_separator (group blanks rest : string) :
  contains_substring ")," group = false ->
  all_chars is_space blanks = true ->
  re_split_rows (group ++ ")," ++ blanks ++ "(" ++ rest)
  = group :: re_split_rows rest.
Proof. apply re_split_rows_cut. Qed.

Lemma row_groups_cut_at_separator_witness :
  contains_substring ")," "1,'a'" = false
  /\ all_chars is_space "  " = true
  /\ re_split_rows ("1,'a'" ++ ")," ++ "  " ++ "(" ++ "2,'b'),(3,'c'")
     = ["1,'a'"; "2,'b'"; "3,'c'"].
Proof.
  split; [reflexivity|]. split; [reflexivity|].
  rewrite (row_groups_cut_at_separator "1,'a'" "  " "2,'b'),(3,'c'");
    reflexivity.
Defined.

(** X16: no row-group of a statement holds a separator: at no position
    of a row-group does a close-parenthesis, comma, blanks and
    open-parenthesis start. *)
Theorem row_groups_hold_no_separator (statement : string) :
  Forall (fun group => forall k, match_separator (drop k group) = None)
    (row_groups statement).
Proof. apply re_split_scan_separator_free. Qed.

(** X17: a quote opens a token that ends at the next quote, whatever
    comes after: the text in between, which holds no quote, is the token,
    and the scan goes on after the closing quote. *)
Theorem quoted_token_ends_at_first_quote (q rest : string) :
  has_char "'" q = false ->
  tokens ("'" ++ q ++ "'" ++ rest) = Quoted q :: tokens rest.
Proof. apply tokens_quoted. Qed.

Lemma quoted_token_ends_at_first_quote_witness :
  has_char "'" "O\" = false
  /\ tokens ("'" ++ "O\" ++ "'" ++ "Brien',5")
     = [Quoted "O\"; Digits "5"].
Proof.
  split; [reflexivity|].
  rewrite (quoted_token_ends_at_first_quote "O\" "Brien',5"); reflexivity.
Defined.
